(** * agcodex: the YAML agent-configuration checker and the task sample

    Shallow embedding of

    - [codex-rs/verify_yaml_config.py]: [verify_yaml_config] and [main];
    - [codex-rs/tests/fixtures/sample_code/python_sample.py]: [Task] and
      [TaskManager];

    together with the properties stated about them.  The loader over the
    global and the project scope, which the script only names, is
    modelled from its specification in [ScopeResolver]. *)

From Stdlib Require Import ZArith Ascii String List Lia.
From stdpp Require Import base option list strings gmap fin_maps pretty sorting.

Set Warnings "-register-all".

Local Open Scope string_scope.
Local Open Scope Z_scope.

(** ** Python values and the builtins the scripts use *)

Module Py.

(** What [yaml.safe_load] hands to the script: scalars, sequences and
    mappings.  Mapping keys are strings (the only keys the script ever
    asks for); a mapping is kept as the list of its items in insertion
    order, the first item of a key being the one [lookup] sees.  A
    character is a code point below 256.  Floats and timestamps are left
    out: the script never inspects them. *)
Inductive value : Type :=
| VNone
| VBool (b : bool)
| VInt (z : Z)
| VStr (s : string)
| VList (l : list value)
| VDict (d : list (string * value)).

Inductive exn : Type :=
| TypeError
| KeyError
| ValueError
| YAMLError
| OSError.

(** The result of evaluating an expression. *)
Inductive res (A : Type) : Type :=
| Val (a : A)
| Exc (e : exn).
Arguments Val {A} a.
Arguments Exc {A} e.

Definition bind {A B : Type} (e : res A) (k : A -> res B) : res B :=
  match e with
  | Val a => k a
  | Exc x => Exc x
  end.

Fixpoint lookup (k : string) (d : list (string * value)) : option value :=
  match d with
  | [] => None
  | (k', v) :: d' => if String.eqb k k' then Some v else lookup k d'
  end.

(** [needle in s] on two strings. *)
Fixpoint substring_of (needle s : string) : bool :=
  String.prefix needle s ||
  match s with
  | EmptyString => false
  | String _ s' => substring_of needle s'
  end.

(** [v == s] for a string literal [s]: only an equal string is equal. *)
Definition eq_str (v : value) (s : string) : bool :=
  match v with
  | VStr s' => String.eqb s' s
  | _ => false
  end.

Definition chars (s : string) : list value :=
  map (fun c => VStr (String c EmptyString)) (list_ascii_of_string s).

(** [needle in hay] for a string [needle]. *)
Definition contains (hay : value) (needle : string) : res bool :=
  match hay with
  | VDict d => Val (bool_decide (is_Some (lookup needle d)))
  | VList l => Val (existsb (fun x => eq_str x needle) l)
  | VStr s => Val (substring_of needle s)
  | VNone | VBool _ | VInt _ => Exc TypeError
  end.

(** [obj[key]] for a string [key]. *)
Definition getitem (obj : value) (key : string) : res value :=
  match obj with
  | VDict d => match lookup key d with Some v => Val v | None => Exc KeyError end
  | _ => Exc TypeError
  end.

(** [obj[:n]]. *)
Definition slice_to (n : nat) (obj : value) : res value :=
  match obj with
  | VStr s => Val (VStr (String.substring 0 n s))
  | VList l => Val (VList (firstn n l))
  | _ => Exc TypeError
  end.

(** [bool(v)]. *)
Definition truthy (v : value) : bool :=
  match v with
  | VNone => false
  | VBool b => b
  | VInt z => negb (z =? 0)
  | VStr s => negb (String.eqb s "")
  | VList l => negb (bool_decide (l = []))
  | VDict d => match d with [] => false | _ => true end
  end.

(** [len(v)]. *)
Definition len (v : value) : res nat :=
  match v with
  | VStr s => Val (String.length s)
  | VList l => Val (List.length l)
  | VDict d => Val (List.length d)
  | VNone | VBool _ | VInt _ => Exc TypeError
  end.

(** [iter(v)], run to the end. *)
Definition iter (v : value) : res (list value) :=
  match v with
  | VList l => Val l
  | VStr s => Val (chars s)
  | VDict d => Val (map (fun kv => VStr (fst kv)) d)
  | VNone | VBool _ | VInt _ => Exc TypeError
  end.

(** *** [repr] and [str] *)

Definition hex_digit (n : N) : ascii :=
  ascii_of_N (if (n <? 10)%N then 48 + n else 87 + n)%N.

Definition printable (n : N) : bool :=
  ((32 <=? n) && (n <? 127) || (161 <=? n) && negb (n =? 173))%N.

Definition repr_char (quote c : ascii) : string :=
  let n := N_of_ascii c in
  if Ascii.eqb c "\" then "\\"
  else if Ascii.eqb c quote then String "\" (String quote "")
  else if (n =? 9)%N then "\t"
  else if (n =? 10)%N then "\n"
  else if (n =? 13)%N then "\r"
  else if printable n then String c ""
  else String "\" (String "x" (String (hex_digit (n / 16)) (String (hex_digit (n mod 16)) ""))).

Definition has_char (c : ascii) (s : string) : bool :=
  existsb (Ascii.eqb c) (list_ascii_of_string s).

Definition dquote : ascii := "034"%char.

(** Single quotes, unless the string has one and no double quote. *)
Definition repr_str (s : string) : string :=
  let quote : ascii :=
    if has_char "'" s && negb (has_char dquote s) then dquote else "'"%char in
  String quote
    (String.concat "" (map (repr_char quote) (list_ascii_of_string s)) ++ String quote "").

Fixpoint repr (v : value) : string :=
  match v with
  | VNone => "None"
  | VBool true => "True"
  | VBool false => "False"
  | VInt z => pretty z
  | VStr s => repr_str s
  | VList l => "[" ++ String.concat ", " (map repr l) ++ "]"
  | VDict d =>
      "{" ++ String.concat ", "
               (map (fun kv => let '(k, x) := kv in repr_str k ++ ": " ++ repr x) d)
          ++ "}"
  end.

(** The text of [v], when [str(v)] gives one: see [formattable]. *)
Definition str (v : value) : string :=
  match v with
  | VStr s => s
  | _ => repr v
  end.

(** The conversion of an integer to text gives up on more than 4300
    digits (the default of [sys.set_int_max_str_digits]) and raises
    [ValueError]; so do [str], [repr] and an f-string on a value that
    holds such an integer. *)
Definition max_str_digits : nat := 4300.

Definition int_formattable (z : Z) : bool :=
  (String.length (pretty (Z.abs z)) <=? max_str_digits)%nat.

Fixpoint formattable (v : value) : bool :=
  match v with
  | VInt z => int_formattable z
  | VList l => forallb formattable l
  | VDict d => forallb (fun kv => let '(_, x) := kv in formattable x) d
  | VNone | VBool _ | VStr _ => true
  end.

(** [str(v)]. *)
Definition to_text (v : value) : res string :=
  if formattable v then Val (str v) else Exc ValueError.

End Py.

(** ** [verify_yaml_config.py] *)

Module VerifyYamlConfig.
Import Py.

(** One constructor per [print] of the script; the arguments are the
    values the message is formatted from. *)
Inductive event : Type :=
| Verifying (file_path : string)
| MissingRequired (field : string)
| FieldOk (field : string) (shown : value) (ellipsis : bool)
| InvalidMode (v : value) (valid_modes : list string)
| ModeOk (v : value)
| InvalidIntelligence (v : value) (valid_levels : list string)
| IntelligenceOk (v : value)
| ToolsConfigured (n : nat)
| ToolMissingName
| InvalidPermission (name permission : value)
| ToolOk (name permission : value) (restrictions : option nat)
| ParametersDefined (n : nat)
| ParameterMissing (field : string)
| ParameterOk (name description : value)
| OtherItems (field : string) (n : nat)
| OtherEntries (field : string) (n : nat)
| ConfigurationValid
| CreatingDirectory
| NoFilesFound
| Found (n : nat)
| AllValid
| SomeErrors.

(** The lines printed with a cross: the violations the script reports. *)
Definition is_violation (e : event) : bool :=
  match e with
  | MissingRequired _ | InvalidMode _ _ | InvalidIntelligence _ _
  | ToolMissingName | InvalidPermission _ _ | ParameterMissing _ => true
  | _ => false
  end.

Definition violations (log : list event) : list event :=
  List.filter is_violation log.

(** How a block of statements ends: it falls through, the function
    returns, or an exception leaves it. *)
Inductive flow : Type :=
| Next
| Return (b : bool)
| Raised (e : exn).

(** A block: what it printed and how it ended. *)
Definition stmt : Type := list event * flow.

Definition skip : stmt := ([], Next).
Definition print (e : event) : stmt := ([e], Next).
Definition ret (b : bool) : stmt := ([], Return b).

Definition seq (s1 s2 : stmt) : stmt :=
  match s1 with
  | (out, Next) => ((out ++ fst s2)%list, snd s2)
  | _ => s1
  end.

(** Evaluate an expression, then go on with its value. *)
Definition eval {A : Type} (e : res A) (k : A -> stmt) : stmt :=
  match e with
  | Val a => k a
  | Exc x => ([], Raised x)
  end.

Declare Scope stmt_scope.
Delimit Scope stmt_scope with stmt.
Bind Scope stmt_scope with stmt.
Notation "s1 ;; s2" := (seq s1 s2)
  (at level 100, s2 at level 200, right associativity) : stmt_scope.
Notation "'let*' x := e 'in' k" := (eval e (fun x => k))
  (at level 10, x name, e at level 99, k at level 200) : stmt_scope.
Local Open Scope stmt_scope.

(** A statement whose f-string puts the values [vs] into text. *)
Definition formatting (vs : list value) (s : stmt) : stmt :=
  if forallb formattable vs then s else ([], Raised ValueError).

Fixpoint for_each {A : Type} (body : A -> stmt) (l : list A) : stmt :=
  match l with
  | [] => skip
  | x :: l' => body x ;; for_each body l'
  end.

Definition required : list string := ["name"; "description"; "prompt"].
Definition valid_modes : list string := ["plan"; "build"; "review"].
Definition valid_levels : list string := ["light"; "medium"; "hard"].
Definition valid_permissions : list string := ["allow"; "deny"; "restricted"].
Definition required_param_fields : list string := ["name"; "description"].
Definition other_fields : list string := ["tags"; "file_patterns"; "metadata"].

(** [v in l] for a list [l] of string literals. *)
Definition among (v : value) (l : list string) : bool :=
  existsb (eq_str v) l.

(** Lines 22-27, one turn of the loop. *)
Definition check_required_field (config : value) (field : string) : stmt :=
  let* present := contains config field in
  if negb present then print (MissingRequired field) ;; ret false
  else
    let* v := getitem config field in
    if negb (truthy v) then print (MissingRequired field) ;; ret false
    else
      let* text := to_text v in
      if (50 <? String.length text)%nat then
        let* shown := slice_to 50 v in
        formatting [shown] (print (FieldOk field shown true))
      else formatting [v] (print (FieldOk field v false)).

Definition check_required (config : value) : stmt :=
  for_each (check_required_field config) required.

(** Lines 30-35. *)
Definition check_mode_override (config : value) : stmt :=
  let* present := contains config "mode_override" in
  if present then
    let* v := getitem config "mode_override" in
    if negb (among v valid_modes) then
      formatting [v] (print (InvalidMode v valid_modes)) ;; ret false
    else formatting [v] (print (ModeOk v))
  else skip.

(** Lines 37-42. *)
Definition check_intelligence (config : value) : stmt :=
  let* present := contains config "intelligence" in
  if present then
    let* v := getitem config "intelligence" in
    if negb (among v valid_levels) then
      formatting [v] (print (InvalidIntelligence v valid_levels)) ;; ret false
    else formatting [v] (print (IntelligenceOk v))
  else skip.

(** Lines 48-58, one turn of the loop. *)
Definition check_tool (tool : value) : stmt :=
  let* has_name := contains tool "name" in
  if negb has_name then print ToolMissingName ;; ret false
  else
    let* has_permission := contains tool "permission" in
    if has_permission then
      let* permission := getitem tool "permission" in
      if negb (among permission valid_permissions) then
        let* name := getitem tool "name" in
        formatting [name; permission] (print (InvalidPermission name permission)) ;;
        ret false
      else
        let* has_restrictions :=
          (if eq_str permission "restricted" then contains tool "restrictions"
           else Val false) in
        let* restrictions :=
          (if has_restrictions then
             bind (getitem tool "restrictions") (fun r =>
             bind (len r) (fun n => Val (Some n)))
           else Val None) in
        let* name := getitem tool "name" in
        formatting [name; permission] (print (ToolOk name permission restrictions))
    else skip.

(** Lines 45-58. *)
Definition check_tools (config : value) : stmt :=
  let* present := contains config "tools" in
  if present then
    let* tools := getitem config "tools" in
    let* n := len tools in
    print (ToolsConfigured n) ;;
    let* items := iter tools in
    for_each check_tool items
  else skip.

(** Lines 64-69, one turn of the loop. *)
Definition check_parameter (param : value) : stmt :=
  for_each (fun field =>
              let* present := contains param field in
              if negb present then print (ParameterMissing field) ;; ret false
              else skip)
           required_param_fields ;;
  let* name := getitem param "name" in
  formatting [name]
    (let* description := getitem param "description" in
     let* shown := slice_to 40 description in
     formatting [shown] (print (ParameterOk name shown))).

(** Lines 61-69. *)
Definition check_parameters (config : value) : stmt :=
  let* present := contains config "parameters" in
  if present then
    let* parameters := getitem config "parameters" in
    let* n := len parameters in
    print (ParametersDefined n) ;;
    let* items := iter parameters in
    for_each check_parameter items
  else skip.

(** Lines 72-77. *)
Definition report_other_field (config : value) (field : string) : stmt :=
  let* present := contains config field in
  if present then
    let* v := getitem config field in
    match v with
    | VList l => print (OtherItems field (List.length l))
    | VDict d => print (OtherEntries field (List.length d))
    | _ => skip
    end
  else skip.

Definition report_other_fields (config : value) : stmt :=
  for_each (report_other_field config) other_fields.

(** Lines 20-80: everything after the document is loaded. *)
Definition verify_loaded (config : value) : stmt :=
  check_required config ;;
  check_mode_override config ;;
  check_intelligence config ;;
  check_tools config ;;
  check_parameters config ;;
  report_other_fields config ;;
  print ConfigurationValid ;;
  ret true.

(** What [open(file_path)] followed by [yaml.safe_load] does on a
    directory entry: [open] fails, the text is not YAML, or a document
    comes back. *)
Inductive file : Type :=
| Unreadable
| Malformed
| Document (config : value).

Definition safe_load (f : file) : res value :=
  match f with
  | Unreadable => Exc OSError
  | Malformed => Exc YAMLError
  | Document config => Val config
  end.

Definition verify_yaml_config (file_path : string) (f : file) : stmt :=
  print (Verifying file_path) ;;
  let* config := safe_load f in
  verify_loaded config.

(** The directory [example-agents]: its entries in the order the file
    system lists them. *)
Record entry : Type := Entry { entry_name : string; entry_file : file }.

Definition string_rev (s : string) : string :=
  string_of_list_ascii (List.rev (list_ascii_of_string s)).

Definition has_suffix (suffix s : string) : bool :=
  String.prefix (string_rev suffix) (string_rev s).

(** [example_dir.glob("*" + suffix)]. *)
Definition glob (suffix : string) (dir : list entry) : list entry :=
  List.filter (fun e => has_suffix suffix (entry_name e)) dir.

(** Line 90. *)
Definition yaml_files (dir : list entry) : list entry :=
  (glob ".yaml" dir ++ glob ".yml" dir)%list.

(** Lines 98-101: the loop over the files, threading [all_valid].  A
    call that ends without [return] would yield [None], which is falsy. *)
Fixpoint verify_each (files : list entry) (all_valid : bool) : list event * res bool :=
  match files with
  | [] => ([], Val all_valid)
  | yaml_file :: rest =>
      match verify_yaml_config (entry_name yaml_file) (entry_file yaml_file) with
      | (out, Raised x) => (out, Exc x)
      | (out, fl) =>
          let ok := match fl with Return b => b | _ => false end in
          let '(out', r) := verify_each rest (if negb ok then false else all_valid) in
          ((out ++ out')%list, r)
      end
  end.

(** Lines 82-114.  [None] is a missing [example-agents], which [main]
    creates empty. *)
Definition main (example_dir : option (list entry)) : list event * res unit :=
  let created := match example_dir with None => [CreatingDirectory] | Some _ => [] end in
  let files := yaml_files (default [] example_dir) in
  match files with
  | [] => ((created ++ [NoFilesFound])%list, Val tt)
  | _ =>
      match verify_each files true with
      | (out, Exc x) => ((created ++ Found (List.length files) :: out)%list, Exc x)
      | (out, Val all_valid) =>
          ((created ++ Found (List.length files) :: out
              ++ [if all_valid then AllValid else SomeErrors])%list, Val tt)
      end
  end.

End VerifyYamlConfig.

(** ** [python_sample.py] *)

Module Sample.

(** A [datetime]: naive, or aware of its time zone, with its place on
    the time line as a number.  Two of one kind compare by that number;
    [<] between a naive and an aware one raises [TypeError]. *)
Inductive datetime : Type :=
| Naive (t : Z)
| Aware (t : Z).

(** [Task].  [metadata] plays no part in the methods below and is a
    string map. *)
Record Task : Type := mkTask {
  id : string;
  title : string;
  completed : bool;
  created_at : datetime;
  tags : list string;
  metadata : gmap string string
}.

Definition with_tags (t : Task) (new_tags : list string) : Task :=
  {| id := id t; title := title t; completed := completed t;
     created_at := created_at t; tags := new_tags; metadata := metadata t |}.

Definition mark_completed (t : Task) : Task :=
  {| id := id t; title := title t; completed := true;
     created_at := created_at t; tags := tags t; metadata := metadata t |}.

(** [tag in self.tags]. *)
Definition has_tag (tag : string) (t : Task) : bool :=
  existsb (String.eqb tag) (tags t).

(** Lines 23-26. *)
Definition add_tag (tag : string) (t : Task) : Task :=
  if negb (has_tag tag t) then with_tags t (tags t ++ [tag]) else t.

(** [TaskManager]: [self.tasks], a dictionary from task id to task.  The
    methods below do not depend on the order of its items. *)
Record TaskManager : Type := mkManager { tasks : gmap string Task }.

Definition init : TaskManager := {| tasks := ∅ |}.

(** Lines 50-52. *)
Definition add_task (task : Task) (m : TaskManager) : TaskManager :=
  {| tasks := <[id task := task]> (tasks m) |}.

(** Lines 54-56. *)
Definition get_task (task_id : string) (m : TaskManager) : option Task :=
  tasks m !! task_id.

(** Lines 58-63: the manager afterwards and the value returned. *)
Definition remove_task (task_id : string) (m : TaskManager) : TaskManager * bool :=
  if bool_decide (is_Some (tasks m !! task_id))
  then ({| tasks := delete task_id (tasks m) |}, true)
  else (m, false).

(** Lines 86-96. *)
Definition get_stats (m : TaskManager) : gmap string Z :=
  let total := Z.of_nat (size (tasks m)) in
  let completed :=
    map_fold (fun _ task acc => if completed task then acc + 1 else acc) 0 (tasks m) in
  let pending := total - completed in
  {[ "total" := total; "completed" := completed; "pending" := pending ]}.

End Sample.

(** ** The loader over two scopes *)

Module ScopeResolver.
Import Py VerifyYamlConfig.

Inductive origin : Type := Global | Project.

(** Modelled from the spec: an accepted configuration (section 3), the
    document of its file tagged with the scope it comes from.  The
    loader that merges the global and the project directory is not
    among the sources; the script only names it in its closing
    message. *)
Record agent_config : Type := AgentConfig { config : value; origin_of : origin }.

(** Modelled from the spec: what the resolver makes of one file
    (section 4.4).  The file is validated by [verify_yaml_config], the
    validator of the sources: it is accepted when the call returns
    [True] and its [name] is a string, and it then stands under that
    name. *)
Definition load (e : entry) : option (string * value) :=
  match entry_file e, snd (verify_yaml_config (entry_name e) (entry_file e)) with
  | Document (VDict d), Return true =>
      match lookup "name" d with
      | Some (VStr n) => Some (n, VDict d)
      | _ => None
      end
  | _, _ => None
  end.

(** Modelled from the spec: the merge rule of section 4.4 for one file.
    An accepted file replaces whatever its name stood for; a file that
    is not accepted is set aside with the outcome of its validation and
    the scan goes on. *)
Definition merge_file (o : origin)
    (acc : gmap string agent_config * list (string * stmt)) (e : entry)
  : gmap string agent_config * list (string * stmt) :=
  match load e with
  | Some (n, doc) => (<[n := AgentConfig doc o]> (fst acc), snd acc)
  | None =>
      (fst acc,
       (snd acc ++ [(entry_name e, verify_yaml_config (entry_name e) (entry_file e))])%list)
  end.

(** Modelled from the spec: one scope, its files found as line 90 of
    the script finds them. *)
Definition merge_scope (o : origin) (dir : list entry)
    (acc : gmap string agent_config * list (string * stmt))
  : gmap string agent_config * list (string * stmt) :=
  fold_left (merge_file o) (yaml_files dir) acc.

(** Modelled from the spec: the Scope Resolver of section 4.4, global
    entries first, then project entries. *)
Definition resolve (global project : list entry)
  : gmap string agent_config * list (string * stmt) :=
  merge_scope Project project (merge_scope Global global (∅, [])).

(** The agent a file contributes, if any. *)
Definition agent_of (e : entry) : option string :=
  match load e with
  | Some (n, _) => Some n
  | None => None
  end.

End ScopeResolver.

(** ** [python_sample.py]: tags and listings *)

Module SampleLists.
Import Sample.

(** [list.remove]: drops the first occurrence. *)
Fixpoint remove_first (tag : string) (l : list string) : list string :=
  match l with
  | [] => []
  | x :: l' => if String.eqb x tag then l' else x :: remove_first tag l'
  end.

(** Lines 28-31. *)
Definition remove_tag (tag : string) (t : Task) : Task :=
  if has_tag tag t then with_tags t (remove_first tag (tags t)) else t.

(** [a < b] on two [datetime]s. *)
Definition earlier (a b : datetime) : Py.res bool :=
  match a, b with
  | Naive x, Naive y | Aware x, Aware y => Py.Val (x <? y)
  | _, _ => Py.Exc Py.TypeError
  end.

(** [sorted(tasks, key=lambda t: t.created_at)]: the sort is stable and
    compares with [<] only; a task goes before the tasks after it that
    are not older.  A comparison that raises ends the sort. *)
Fixpoint insert_by_created_at (t : Task) (l : list Task) : Py.res (list Task) :=
  match l with
  | [] => Py.Val [t]
  | x :: l' =>
      Py.bind (earlier (created_at x) (created_at t)) (fun older =>
      if older
      then Py.bind (insert_by_created_at t l') (fun r => Py.Val (x :: r))
      else Py.Val (t :: l))
  end.

Fixpoint sorted_by_created_at (l : list Task) : Py.res (list Task) :=
  match l with
  | [] => Py.Val []
  | t :: l' => Py.bind (sorted_by_created_at l') (insert_by_created_at t)
  end.

(** Lines 65-72, on [values], the stored tasks as [self.tasks.values()]
    lists them: in the order of their insertion. *)
Definition list_tasks (values : list Task) (completed : option bool)
  : Py.res (list Task) :=
  let tasks :=
    match completed with
    | Some c => List.filter (fun task => Bool.eqb (Sample.completed task) c) values
    | None => values
    end in
  sorted_by_created_at tasks.

End SampleLists.

(** ** [python_sample.py]: tasks as objects *)

Module SampleObjects.
Import Sample.

(** A task is an object: the manager holds references, and a method of
    [Task] changes the object for every holder.  [objects] maps each
    reference to the state of its object, [stored] is [self.tasks]. *)
Record store : Type := Store {
  objects : gmap positive Task;
  stored : gmap string positive
}.

(** Lines 54-56: the object under the id, here by its state. *)
Definition get_task (task_id : string) (s : store) : option Task :=
  stored s !! task_id ≫= fun r => objects s !! r.

(** Lines 78-84 with lines 19-21: the store afterwards and the value
    returned.  [self.get_task(task_id)] gives the object under the id or
    [None]; a [Task] defines neither [__bool__] nor [__len__], so
    [if task] holds exactly when the id is stored, and [mark_completed]
    then writes to that object. *)
Definition mark_task_completed (task_id : string) (s : store) : store * bool :=
  match stored s !! task_id with
  | Some r => ({| objects := alter mark_completed r (objects s); stored := stored s |}, true)
  | None => (s, false)
  end.

(** The manager as the methods without side effect see it: each id
    with the state of its object. *)
Definition manager (s : store) : TaskManager :=
  {| tasks := omap (fun r => objects s !! r) (stored s) |}.

End SampleObjects.

(** * Properties *)

(** ** The task sample *)

Module SampleProps.
Import Sample.

(** How often [tag] occurs in a list of tags. *)
Definition occurrences (tag : string) (l : list string) : nat :=
  List.length (List.filter (String.eqb tag) l).

(** The stored tasks that are completed. *)
Definition completed_tasks (m : TaskManager) : gmap string Task :=
  filter (fun kv => completed (snd kv) = true) (tasks m).

Definition pending_tasks (m : TaskManager) : gmap string Task :=
  filter (fun kv => completed (snd kv) = false) (tasks m).

Lemma occurrences_app tag l1 l2 :
  occurrences tag (l1 ++ l2) = (occurrences tag l1 + occurrences tag l2)%nat.
Proof. unfold occurrences. by rewrite List.filter_app, length_app. Qed.

Lemma has_tag_occurrences tag t :
  has_tag tag t = true <-> (0 < occurrences tag (tags t))%nat.
Proof.
  unfold has_tag, occurrences. induction (tags t) as [|x l IH]; simpl.
  - split; [discriminate | lia].
  - destruct (String.eqb tag x); simpl; [split; [lia | done] | exact IH].
Qed.

Lemma has_tag_false_occurrences tag t :
  has_tag tag t = false <-> occurrences tag (tags t) = 0%nat.
Proof.
  pose proof (has_tag_occurrences tag t) as H.
  destruct (has_tag tag t); split; intros; try done.
  - destruct H as [H _]. specialize (H eq_refl). lia.
  - destruct (occurrences tag (tags t)); [done | ].
    destruct H as [_ H]. discriminate H. lia.
Qed.

Lemma has_tag_In tag t : has_tag tag t = true <-> In tag (tags t).
Proof.
  unfold has_tag. rewrite existsb_exists. split.
  - intros (x & Hx & Heq). apply String.eqb_eq in Heq. by subst.
  - intros H. exists tag. split; [done | apply String.eqb_refl].
Qed.

Lemma completed_count (m : gmap string Task) :
  map_fold (fun _ task acc => if completed task then acc + 1 else acc) 0 m
  = Z.of_nat (size (filter (fun kv : string * Task => completed (snd kv) = true) m)).
Proof.
  induction m as [|k task m Hk Hfold IH] using map_first_key_ind.
  - by rewrite map_fold_empty, map_filter_empty, map_size_empty.
  - rewrite map_fold_insert_first_key by done. rewrite IH.
    destruct (completed task) eqn:Hc.
    + rewrite map_filter_insert_True by done.
      rewrite map_size_insert_None; [lia | ].
      by rewrite map_lookup_filter_None; left.
    + rewrite map_filter_insert_not'; [done | simpl; congruence | ].
      intros y Hy. congruence.
Qed.

Lemma completed_pending_size (m : gmap string Task) :
  size m
  = (size (filter (fun kv : string * Task => completed (snd kv) = true) m)
     + size (filter (fun kv : string * Task => completed (snd kv) = false) m))%nat.
Proof.
  induction m as [|k task m Hk IH] using map_ind.
  - by rewrite !map_filter_empty, map_size_empty.
  - rewrite map_size_insert_None by done.
    destruct (completed task) eqn:Hc.
    + rewrite map_filter_insert_True by done.
      rewrite (map_filter_insert_not' (fun kv : string * Task => completed (snd kv) = false));
        [ | simpl; congruence | intros y Hy; congruence].
      rewrite map_size_insert_None; [lia | ].
      by rewrite map_lookup_filter_None; left.
    + rewrite (map_filter_insert_True (fun kv : string * Task => completed (snd kv) = false))
        by done.
      rewrite map_filter_insert_not'; [ | simpl; congruence | intros y Hy; congruence].
      rewrite map_size_insert_None; [lia | ].
      by rewrite map_lookup_filter_None; left.
Qed.

(** C8.  [remove_task] returns [True] exactly when a task with the given
    id was stored; afterwards the id is absent from the manager; and
    when it returns [False] the manager is unchanged. *)
Theorem remove_task_spec (m : TaskManager) (task_id : string) :
  (snd (remove_task task_id m) = true <-> is_Some (tasks m !! task_id))
  /\ tasks (fst (remove_task task_id m)) !! task_id = None
  /\ (snd (remove_task task_id m) = false -> fst (remove_task task_id m) = m).
Proof.
  unfold remove_task. case_bool_decide as Hin; simpl.
  - split; [done | ]. split; [apply lookup_delete_eq | discriminate].
  - split; [split; [discriminate | done] | ].
    split; [ | done].
    destruct (tasks m !! task_id) eqn:E; [ | done].
    exfalso. apply Hin. eauto.
Qed.

(** C9, as the code has it.  After [add_tag] the tag occurs as often as
    before, or once when it was absent: exactly once for a task that
    held it at most once, and a list without duplicates stays so.  A tag
    already present leaves the task unchanged, and [add_tag] is
    idempotent.  The other tags are not touched. *)
Theorem add_tag_spec (t : Task) (tag : string) :
  occurrences tag (tags (add_tag tag t)) = Nat.max 1 (occurrences tag (tags t))
  /\ ((occurrences tag (tags t) <= 1)%nat -> occurrences tag (tags (add_tag tag t)) = 1%nat)
  /\ (NoDup (tags t) -> NoDup (tags (add_tag tag t)))
  /\ (has_tag tag t = true -> add_tag tag t = t)
  /\ add_tag tag (add_tag tag t) = add_tag tag t
  /\ (forall other, other <> tag ->
        occurrences other (tags (add_tag tag t)) = occurrences other (tags t)).
Proof.
  assert (Hocc : occurrences tag (tags (add_tag tag t))
                 = Nat.max 1 (occurrences tag (tags t))).
  { unfold add_tag. destruct (has_tag tag t) eqn:Hin; simpl.
    - apply has_tag_occurrences in Hin. lia.
    - apply has_tag_false_occurrences in Hin.
      rewrite occurrences_app, Hin. unfold occurrences. simpl.
      by rewrite String.eqb_refl. }
  split; [exact Hocc | ].
  split; [intros Hle; rewrite Hocc; lia | ].
  split.
  { intros Hnd. unfold add_tag. destruct (has_tag tag t) eqn:Hin; simpl; [done | ].
    apply NoDup_app. split; [done | ]. split; [ | apply NoDup_singleton].
    intros x Hx Hx'. apply list_elem_of_singleton in Hx'. subst x.
    apply list_elem_of_In in Hx. apply has_tag_In in Hx. congruence. }
  split.
  { intros Hin. unfold add_tag. by rewrite Hin. }
  split.
  { unfold add_tag at 1.
    destruct (has_tag tag (add_tag tag t)) eqn:Hin; simpl; [done | ].
    apply has_tag_false_occurrences in Hin. rewrite Hocc in Hin. lia. }
  intros other Hne. unfold add_tag. destruct (has_tag tag t); simpl; [done | ].
  rewrite occurrences_app. unfold occurrences at 2. simpl.
  destruct (String.eqb other tag) eqn:E; [ | simpl; lia].
  apply String.eqb_eq in E. congruence.
Qed.

(** C9, as the claim has it, fails on a task built with a repeated tag:
    [add_tag] leaves both occurrences in place. *)
Definition twice_tagged : Task :=
  {| id := "1"; title := "Learn Python"; completed := false; created_at := Naive 0;
     tags := ["learning"; "learning"]; metadata := ∅ |}.

Lemma add_tag_keeps_duplicates :
  tags (add_tag "learning" twice_tagged) = ["learning"; "learning"]
  /\ occurrences "learning" (tags (add_tag "learning" twice_tagged)) <> 1%nat.
Proof. split; [reflexivity | vm_compute; lia]. Qed.

(** C10.  [get_stats] maps ['total'] to the number of stored tasks,
    ['completed'] to the number of stored tasks that are completed, and
    ['pending'] to the rest, so that total = completed + pending; the
    pending ones are the stored tasks that are not completed. *)
Theorem get_stats_spec (m : TaskManager) :
  exists total done_ pending : Z,
    get_stats m !! "total" = Some total
    /\ get_stats m !! "completed" = Some done_
    /\ get_stats m !! "pending" = Some pending
    /\ total = Z.of_nat (size (tasks m))
    /\ done_ = Z.of_nat (size (completed_tasks m))
    /\ total = done_ + pending
    /\ pending = Z.of_nat (size (pending_tasks m)).
Proof.
  exists (Z.of_nat (size (tasks m))), (Z.of_nat (size (completed_tasks m))),
         (Z.of_nat (size (tasks m)) - Z.of_nat (size (completed_tasks m))).
  unfold get_stats. rewrite completed_count. fold (completed_tasks m).
  repeat split; try (by simplify_map_eq); try lia.
  unfold completed_tasks, pending_tasks.
  pose proof (completed_pending_size (tasks m)). lia.
Qed.

End SampleProps.

(** ** The configuration checker *)

Module VerifyProps.
Import Py VerifyYamlConfig.
Local Open Scope stmt_scope.
Local Open Scope list_scope.

#[local] Arguments among : simpl never.

(** *** Blocks: how output and control compose *)

Lemma flow_seq (s1 s2 : stmt) :
  snd (s1 ;; s2) = match snd s1 with Next => snd s2 | fl => fl end.
Proof. destruct s1 as [out [ | b | x]]; reflexivity. Qed.

Lemma violations_app (l1 l2 : list event) :
  violations (l1 ++ l2) = violations l1 ++ violations l2.
Proof. apply List.filter_app. Qed.

Lemma violations_seq (s1 s2 : stmt) :
  violations (fst (s1 ;; s2))
  = violations (fst s1) ++ match snd s1 with Next => violations (fst s2) | _ => [] end.
Proof.
  destruct s1 as [out [ | b | x]]; simpl; [apply violations_app | | ];
    by rewrite app_nil_r.
Qed.

Lemma seq_Next (out : list event) (s : stmt) :
  ((out, Next) ;; s) = (out ++ fst s, snd s).
Proof. reflexivity. Qed.

Lemma seq_assoc (s1 s2 s3 : stmt) : ((s1 ;; s2) ;; s3) = (s1 ;; s2 ;; s3).
Proof.
  destruct s1 as [o1 [ | b1 | x1]]; try reflexivity.
  destruct s2 as [o2 [ | b2 | x2]]; try reflexivity.
  destruct s3 as [o3 f3]. simpl. by rewrite app_assoc.
Qed.

Lemma for_each_app {A : Type} (body : A -> stmt) (l1 l2 : list A) :
  for_each body (l1 ++ l2) = (for_each body l1 ;; for_each body l2).
Proof.
  induction l1 as [|x l1 IH]; simpl.
  - by destruct (for_each body l2).
  - by rewrite IH, seq_assoc.
Qed.

(** What a caller of the checker can tell: the violations reported and
    the way the block ended. *)
Definition summary (s : stmt) : list event * flow := (violations (fst s), snd s).

Lemma summary_seq (s1 s2 s1' s2' : stmt) :
  summary s1 = summary s1' -> summary s2 = summary s2' ->
  summary (s1 ;; s2) = summary (s1' ;; s2').
Proof.
  unfold summary. intros H1 H2. inversion H1 as [[Hv1 Hf1]].
  inversion H2 as [[Hv2 Hf2]].
  by rewrite !violations_seq, !flow_seq, Hv1, Hf1, Hv2, Hf2.
Qed.

(** A block that reports nothing and falls through. *)
Definition quiet (s : stmt) : Prop := summary s = ([], Next).

Lemma summary_seq_quiet_l (s1 s2 : stmt) :
  quiet s1 -> summary (s1 ;; s2) = summary s2.
Proof.
  unfold quiet, summary. intros H. inversion H as [[Hv Hf]].
  by rewrite violations_seq, flow_seq, Hv, Hf.
Qed.

(** *** At most one violation, and it comes last *)

(** A block is [tidy] when a [return False] comes right after the one
    violation it printed, and every other ending has printed none. *)
Definition tidy (s : stmt) : Prop :=
  match snd s with
  | Return false =>
      exists pre v, fst s = pre ++ [v] /\ violations pre = [] /\ is_violation v = true
  | _ => violations (fst s) = []
  end.

Lemma tidy_skip : tidy skip.
Proof. reflexivity. Qed.

Lemma tidy_print (e : event) : is_violation e = false -> tidy (print e).
Proof. intros H. unfold tidy, violations. simpl. by rewrite H. Qed.

Lemma tidy_ret_true : tidy (ret true).
Proof. reflexivity. Qed.

Lemma tidy_fail (e : event) : is_violation e = true -> tidy (print e ;; ret false).
Proof. intros H. exists [], e. by repeat split. Qed.

Lemma tidy_seq (s1 s2 : stmt) : tidy s1 -> tidy s2 -> tidy (s1 ;; s2).
Proof.
  destruct s1 as [o1 [ | b1 | x1]]; try done.
  destruct s2 as [o2 f2]. unfold tidy. simpl. intros H1 H2.
  destruct f2 as [ | [ | ] | x2]; try (by rewrite violations_app, H1, H2).
  destruct H2 as (pre & v & -> & Hpre & Hv).
  exists (o1 ++ pre), v. rewrite app_assoc. repeat split; [ | done].
  by rewrite violations_app, H1, Hpre.
Qed.

Lemma tidy_eval {A : Type} (e : res A) (k : A -> stmt) :
  (forall a, tidy (k a)) -> tidy (eval e k).
Proof. intros H. destruct e as [a | x]; [apply H | reflexivity]. Qed.

Lemma tidy_for_each {A : Type} (body : A -> stmt) (l : list A) :
  (forall x, tidy (body x)) -> tidy (for_each body l).
Proof.
  intros H. induction l as [|x l IH]; [apply tidy_skip | ].
  simpl. by apply tidy_seq.
Qed.

Lemma tidy_formatting (vs : list value) (s : stmt) : tidy s -> tidy (formatting vs s).
Proof. unfold formatting. by destruct (forallb formattable vs). Qed.

Lemma tidy_fail_formatting (vs : list value) (e : event) :
  is_violation e = true -> tidy (formatting vs (print e) ;; ret false).
Proof.
  intros H. unfold formatting. destruct (forallb formattable vs); [ | done].
  by apply tidy_fail.
Qed.

Create HintDb tidy.
#[local] Hint Resolve tidy_skip tidy_ret_true tidy_seq tidy_formatting : tidy.
#[local] Hint Extern 1 (tidy (print _)) => (apply tidy_print; reflexivity) : tidy.
#[local] Hint Extern 1 (tidy (print _ ;; ret false)) => (apply tidy_fail; reflexivity) : tidy.
#[local] Hint Extern 1 (tidy (formatting _ (print _) ;; ret false)) =>
  (apply tidy_fail_formatting; reflexivity) : tidy.
#[local] Hint Extern 2 (tidy (eval _ _)) => (apply tidy_eval; intros) : tidy.
#[local] Hint Extern 2 (tidy (for_each _ _)) => (apply tidy_for_each; intros) : tidy.
#[local] Hint Extern 3 (tidy (if ?b then _ else _)) => destruct b : tidy.
#[local] Hint Extern 3 (tidy (match ?v with _ => _ end)) => destruct v : tidy.

Lemma tidy_check_required (config : value) : tidy (check_required config).
Proof. unfold check_required, check_required_field. auto 20 with tidy. Qed.

Lemma tidy_check_mode_override (config : value) : tidy (check_mode_override config).
Proof. unfold check_mode_override. auto 20 with tidy. Qed.

Lemma tidy_check_intelligence (config : value) : tidy (check_intelligence config).
Proof. unfold check_intelligence. auto 20 with tidy. Qed.

Lemma tidy_check_tool (tool : value) : tidy (check_tool tool).
Proof. unfold check_tool. auto 20 with tidy. Qed.

Lemma tidy_check_tools (config : value) : tidy (check_tools config).
Proof. unfold check_tools. auto 20 using tidy_check_tool with tidy. Qed.

Lemma tidy_check_parameter (param : value) : tidy (check_parameter param).
Proof. unfold check_parameter. auto 20 with tidy. Qed.

Lemma tidy_check_parameters (config : value) : tidy (check_parameters config).
Proof. unfold check_parameters. auto 20 using tidy_check_parameter with tidy. Qed.

Lemma tidy_report_other_fields (config : value) : tidy (report_other_fields config).
Proof. unfold report_other_fields, report_other_field. auto 20 with tidy. Qed.

Lemma tidy_verify_loaded (config : value) : tidy (verify_loaded config).
Proof.
  unfold verify_loaded.
  auto 20 using tidy_check_required, tidy_check_mode_override, tidy_check_intelligence,
    tidy_check_tools, tidy_check_parameters, tidy_report_other_fields with tidy.
Qed.

Lemma tidy_verify_yaml_config (file_path : string) (f : file) :
  tidy (verify_yaml_config file_path f).
Proof.
  unfold verify_yaml_config. auto 20 using tidy_verify_loaded with tidy.
Qed.

Lemma tidy_Next_quiet (s : stmt) : tidy s -> snd s = Next -> quiet s.
Proof. unfold tidy, quiet, summary. intros H E. rewrite E in *. by rewrite H. Qed.

Lemma tidy_length (s : stmt) : tidy s -> (List.length (violations (fst s)) <= 1)%nat.
Proof.
  unfold tidy. destruct (snd s) as [ | [ | ] | x]; try (intros ->; simpl; lia).
  intros (pre & v & -> & Hpre & Hv). rewrite violations_app, Hpre.
  unfold violations. simpl. rewrite Hv. simpl. lia.
Qed.

(** *** Events a block may print *)

Definition emits (P : event -> Prop) (s : stmt) : Prop := Forall P (fst s).

Section Emits.
Variable P : event -> Prop.

Lemma emits_skip : emits P skip.
Proof. constructor. Qed.

Lemma emits_ret (b : bool) : emits P (ret b).
Proof. constructor. Qed.

Lemma emits_print (e : event) : P e -> emits P (print e).
Proof. intros H. by repeat constructor. Qed.

Lemma emits_seq (s1 s2 : stmt) : emits P s1 -> emits P s2 -> emits P (s1 ;; s2).
Proof.
  destruct s1 as [o1 [ | b1 | x1]]; try done.
  unfold emits. simpl. intros H1 H2. by apply Forall_app.
Qed.

Lemma emits_eval {A : Type} (e : res A) (k : A -> stmt) :
  (forall a, emits P (k a)) -> emits P (eval e k).
Proof. intros H. destruct e as [a | x]; [apply H | constructor]. Qed.

Lemma emits_for_each {A : Type} (body : A -> stmt) (l : list A) :
  (forall x, emits P (body x)) -> emits P (for_each body l).
Proof.
  intros H. induction l as [|x l IH]; [constructor | ].
  simpl. by apply emits_seq.
Qed.
End Emits.

Lemma emits_formatting (P : event -> Prop) (vs : list value) (s : stmt) :
  emits P s -> emits P (formatting vs s).
Proof. unfold formatting. destruct (forallb formattable vs); [done | constructor]. Qed.

Create HintDb emits.
#[local] Hint Resolve emits_skip emits_ret emits_seq emits_formatting : emits.
#[local] Hint Extern 1 (emits _ (print _)) => (apply emits_print; exact I) : emits.
#[local] Hint Extern 2 (emits _ (eval _ _)) => (apply emits_eval; intros) : emits.
#[local] Hint Extern 2 (emits _ (for_each _ _)) => (apply emits_for_each; intros) : emits.
#[local] Hint Extern 3 (emits _ (if ?b then _ else _)) => destruct b : emits.
#[local] Hint Extern 3 (emits _ (match ?v with _ => _ end)) => destruct v : emits.

(** Everything but the report of a bad [mode_override]. *)
Definition not_mode_violation (e : event) : Prop :=
  match e with
  | InvalidMode _ _ => False
  | _ => True
  end.

Lemma check_required_no_mode (config : value) :
  emits not_mode_violation (check_required config).
Proof. unfold check_required, check_required_field. auto 20 with emits. Qed.

Lemma check_intelligence_no_mode (config : value) :
  emits not_mode_violation (check_intelligence config).
Proof. unfold check_intelligence. auto 20 with emits. Qed.

Lemma check_tools_no_mode (config : value) :
  emits not_mode_violation (check_tools config).
Proof. unfold check_tools, check_tool. auto 30 with emits. Qed.

Lemma check_parameters_no_mode (config : value) :
  emits not_mode_violation (check_parameters config).
Proof. unfold check_parameters, check_parameter. auto 30 with emits. Qed.

Lemma report_other_fields_no_mode (config : value) :
  emits not_mode_violation (report_other_fields config).
Proof. unfold report_other_fields, report_other_field. auto 20 with emits. Qed.

(** *** Documents that are mappings *)

Lemma contains_dict (d : list (string * value)) (k : string) :
  contains (VDict d) k = Val (bool_decide (is_Some (lookup k d))).
Proof. reflexivity. Qed.

Lemma contains_present d k v : lookup k d = Some v -> contains (VDict d) k = Val true.
Proof. intros H. rewrite contains_dict, H. by rewrite bool_decide_eq_true_2. Qed.

Lemma contains_absent d k : lookup k d = None -> contains (VDict d) k = Val false.
Proof.
  intros H. rewrite contains_dict, H. rewrite bool_decide_eq_false_2; [done | ].
  by intros [? ?].
Qed.

Lemma getitem_present d k v : lookup k d = Some v -> getitem (VDict d) k = Val v.
Proof. intros H. simpl. by rewrite H. Qed.

Lemma formatting_one (v : value) (s : stmt) :
  formattable v = true -> formatting [v] s = s.
Proof. intros H. unfold formatting. simpl. by rewrite H. Qed.

Lemma formatting_two (a b : value) (s : stmt) :
  formattable a = true -> formattable b = true -> formatting [a; b] s = s.
Proof. intros Ha Hb. unfold formatting. simpl. by rewrite Ha, Hb. Qed.

(** [verify_yaml_config] on a file that loads. *)
Lemma verify_document (file_path : string) (config : value) :
  verify_yaml_config file_path (Document config)
  = (Verifying file_path :: fst (verify_loaded config), snd (verify_loaded config)).
Proof. reflexivity. Qed.

Lemma summary_verify_document (file_path : string) (config : value) :
  summary (verify_yaml_config file_path (Document config)) = summary (verify_loaded config).
Proof. reflexivity. Qed.

(** The checker always ends with [return] or an exception. *)
Lemma seq_ends (s1 s2 : stmt) : snd s2 <> Next -> snd (s1 ;; s2) <> Next.
Proof. rewrite flow_seq. by destruct (snd s1). Qed.

Lemma verify_loaded_ends (config : value) : snd (verify_loaded config) <> Next.
Proof. unfold verify_loaded. repeat apply seq_ends. discriminate. Qed.

(** *** Violations are not accumulated *)

(** The scenario of the specification: the required fields are fine and
    the only tool has no [name] and the permission ["maybe"]. *)
Definition maybe_tool_items : list (string * value) :=
  [("name", VStr "reviewer");
   ("description", VStr "Reviews code");
   ("prompt", VStr "You are a reviewer.");
   ("tools", VList [VDict [("permission", VStr "maybe")]])].

Definition maybe_tool_document : value := VDict maybe_tool_items.

(** C1, as the code has it.  Validation stops at the first violation: a
    run reports at most one, it is the last line printed and the run
    returns [False] right after it; every other run reports none.  For a
    document that passes the checks on the required fields,
    [mode_override] and [intelligence] and whose first tool has no
    [name] and the permission ["maybe"], the missing tool name is the
    only violation reported. *)
Theorem stops_at_first_violation (file_path : string) (f : file) :
  (List.length (violations (fst (verify_yaml_config file_path f))) <= 1)%nat
  /\ (snd (verify_yaml_config file_path f) = Return false ->
      exists pre v,
        fst (verify_yaml_config file_path f) = pre ++ [v]
        /\ violations pre = [] /\ is_violation v = true)
  /\ (snd (verify_yaml_config file_path f) <> Return false ->
      violations (fst (verify_yaml_config file_path f)) = [])
  /\ (forall d tool rest,
        f = Document (VDict d) ->
        snd (check_required (VDict d)) = Next ->
        snd (check_mode_override (VDict d)) = Next ->
        snd (check_intelligence (VDict d)) = Next ->
        lookup "tools" d = Some (VList (VDict tool :: rest)) ->
        lookup "name" tool = None ->
        lookup "permission" tool = Some (VStr "maybe") ->
        snd (verify_yaml_config file_path f) = Return false
        /\ violations (fst (verify_yaml_config file_path f)) = [ToolMissingName]).
Proof.
  pose proof (tidy_verify_yaml_config file_path f) as Htidy.
  split; [by apply tidy_length | ].
  split; [intros E; unfold tidy in Htidy; by rewrite E in Htidy | ].
  split.
  { intros E. unfold tidy in Htidy.
    destruct (snd (verify_yaml_config file_path f)) as [ | [ | ] | x]; done. }
  intros d tool rest -> Hreq Hmode Hint Htools Hname _.
  assert (Hsum : summary (verify_yaml_config file_path (Document (VDict d)))
                 = ([ToolMissingName], Return false)).
  { rewrite summary_verify_document. unfold verify_loaded.
    rewrite summary_seq_quiet_l
      by (apply tidy_Next_quiet; [apply tidy_check_required | done]).
    rewrite summary_seq_quiet_l
      by (apply tidy_Next_quiet; [apply tidy_check_mode_override | done]).
    rewrite summary_seq_quiet_l
      by (apply tidy_Next_quiet; [apply tidy_check_intelligence | done]).
    unfold check_tools. rewrite (contains_present _ _ _ Htools).
    simpl eval. rewrite Htools. simpl.
    unfold check_tool. rewrite (contains_absent _ _ Hname). reflexivity. }
  by inversion Hsum.
Qed.

Lemma stops_at_first_violation_witness :
  snd (verify_yaml_config "agent.yaml" (Document maybe_tool_document)) = Return false
  /\ violations (fst (verify_yaml_config "agent.yaml" (Document maybe_tool_document)))
     = [ToolMissingName].
Proof.
  destruct (stops_at_first_violation "agent.yaml" (Document maybe_tool_document))
    as (_ & _ & _ & H).
  apply (H maybe_tool_items [("permission", VStr "maybe")] []); reflexivity.
Defined.

(** C1, as the claim has it, fails on its own scenario: the run ends at
    the missing tool name and the permission is never looked at. *)
Lemma maybe_tool_reports_one :
  verify_yaml_config "agent.yaml" (Document maybe_tool_document)
  = ([Verifying "agent.yaml";
      FieldOk "name" (VStr "reviewer") false;
      FieldOk "description" (VStr "Reviews code") false;
      FieldOk "prompt" (VStr "You are a reviewer.") false;
      ToolsConfigured 1;
      ToolMissingName],
     Return false)
  /\ (forall name permission,
        ~ In (InvalidPermission name permission)
             (fst (verify_yaml_config "agent.yaml" (Document maybe_tool_document)))).
Proof.
  split; [reflexivity | ].
  intros name permission. vm_compute. intuition discriminate.
Qed.

(** *** Required fields *)

Lemma tidy_check_required_field (config : value) (field : string) :
  tidy (check_required_field config field).
Proof. unfold check_required_field. auto 20 with tidy. Qed.

Lemma quiet_seq (s1 s2 : stmt) : quiet s1 -> quiet s2 -> quiet (s1 ;; s2).
Proof. intros H1 H2. unfold quiet. by rewrite summary_seq_quiet_l. Qed.

Lemma quiet_for_each {A : Type} (body : A -> stmt) (l : list A) :
  Forall (fun x => quiet (body x)) l -> quiet (for_each body l).
Proof.
  induction 1 as [|x l Hx Hl IH]; [reflexivity | ].
  simpl. by apply quiet_seq.
Qed.

Lemma check_required_field_missing d field :
  lookup field d = None \/ (exists v, lookup field d = Some v /\ truthy v = false) ->
  check_required_field (VDict d) field = ([MissingRequired field], Return false).
Proof.
  unfold check_required_field. intros [Habs | (v & Hv & Hfalsy)].
  - by rewrite (contains_absent _ _ Habs).
  - rewrite (contains_present _ _ _ Hv), (getitem_present _ _ _ Hv). simpl.
    by rewrite Hfalsy.
Qed.

Lemma check_required_field_string d field s :
  lookup field d = Some (VStr s) -> s <> "" ->
  exists shown ellipsis,
    check_required_field (VDict d) field = ([FieldOk field shown ellipsis], Next).
Proof.
  intros Hs Hne. unfold check_required_field.
  rewrite (contains_present _ _ _ Hs), (getitem_present _ _ _ Hs). simpl.
  destruct (String.eqb s "") eqn:E; [apply String.eqb_eq in E; done | ]. simpl.
  destruct (50 <? String.length s)%nat; simpl; eauto.
Qed.

(** C4, as the code has it.  The required fields are checked in the
    order name, description, prompt.  When the earlier ones pass and the
    field is absent, or present with a falsy value such as the empty
    string, validation returns [False] and reports that one field as
    missing: the report is the same in both cases.  A non-empty string,
    one of blanks included, passes the check on its field. *)
Theorem required_field_spec (file_path : string) (d : list (string * value))
    (earlier later : list string) (field : string) :
  required = earlier ++ field :: later ->
  Forall (fun g => snd (check_required_field (VDict d) g) = Next) earlier ->
  (lookup field d = None \/ (exists v, lookup field d = Some v /\ truthy v = false) ->
     snd (verify_yaml_config file_path (Document (VDict d))) = Return false
     /\ violations (fst (verify_yaml_config file_path (Document (VDict d))))
        = [MissingRequired field])
  /\ (forall s, lookup field d = Some (VStr s) -> s <> "" ->
        snd (check_required_field (VDict d) field) = Next
        /\ violations (fst (check_required_field (VDict d) field)) = []).
Proof.
  intros Hsplit Hearlier. split.
  - intros Hmiss.
    assert (Hsum : summary (verify_yaml_config file_path (Document (VDict d)))
                   = ([MissingRequired field], Return false)).
    { rewrite summary_verify_document. unfold verify_loaded, check_required.
      rewrite Hsplit, for_each_app, seq_assoc.
      rewrite summary_seq_quiet_l.
      - simpl for_each. rewrite (check_required_field_missing _ _ Hmiss). reflexivity.
      - apply quiet_for_each. eapply List.Forall_impl; [ | exact Hearlier].
        intros g Hg. apply tidy_Next_quiet; [apply tidy_check_required_field | done]. }
    by inversion Hsum.
  - intros s Hs Hne.
    destruct (check_required_field_string _ _ _ Hs Hne) as (shown & ell & ->).
    by split.
Qed.

Definition no_description_items : list (string * value) :=
  [("name", VStr "reviewer"); ("prompt", VStr "You are a reviewer.")].

Lemma required_field_spec_witness :
  snd (verify_yaml_config "agent.yaml" (Document (VDict no_description_items)))
  = Return false
  /\ violations (fst (verify_yaml_config "agent.yaml" (Document (VDict no_description_items))))
     = [MissingRequired "description"].
Proof.
  apply (required_field_spec "agent.yaml" no_description_items
           ["name"] ["prompt"] "description").
  - reflexivity.
  - repeat constructor.
  - left. reflexivity.
Defined.

(** C4, as the claim has it, fails on a name made of blanks: the
    document is accepted.  An empty name is reported with the message of
    an absent one. *)
Definition blank_name_items : list (string * value) :=
  [("name", VStr "   ");
   ("description", VStr "Reviews code");
   ("prompt", VStr "You are a reviewer.")].

Definition empty_name_items : list (string * value) :=
  [("name", VStr "");
   ("description", VStr "Reviews code");
   ("prompt", VStr "You are a reviewer.")].

Lemma blank_name_accepted :
  verify_yaml_config "agent.yaml" (Document (VDict blank_name_items))
  = ([Verifying "agent.yaml";
      FieldOk "name" (VStr "   ") false;
      FieldOk "description" (VStr "Reviews code") false;
      FieldOk "prompt" (VStr "You are a reviewer.") false;
      ConfigurationValid],
     Return true)
  /\ verify_yaml_config "agent.yaml" (Document (VDict empty_name_items))
     = ([Verifying "agent.yaml"; MissingRequired "name"], Return false)
  /\ verify_yaml_config "agent.yaml" (Document (VDict (List.tl empty_name_items)))
     = ([Verifying "agent.yaml"; MissingRequired "name"], Return false).
Proof. repeat split. Qed.

(** *** [mode_override] *)

Lemma among_valid_modes (v : value) :
  among v valid_modes = true <-> v = VStr "plan" \/ v = VStr "build" \/ v = VStr "review".
Proof.
  unfold among, valid_modes. simpl. rewrite !orb_true_iff.
  destruct v as [ | b | z | s | l | d]; simpl;
    try (split; [intros [? | [? | [? | ?]]]; discriminate
                | intros [? | [? | ?]]; discriminate]).
  rewrite !String.eqb_eq. split.
  - intros [-> | [-> | [-> | ?]]]; auto. discriminate.
  - intros [E | [E | E]]; inversion E; auto.
Qed.

Lemma check_mode_override_no_mode d :
  lookup "mode_override" d = None
  \/ (exists v, lookup "mode_override" d = Some v /\ among v valid_modes = true) ->
  emits not_mode_violation (check_mode_override (VDict d)).
Proof.
  unfold check_mode_override. intros [Habs | (v & Hv & Hok)].
  - rewrite (contains_absent _ _ Habs). constructor.
  - rewrite (contains_present _ _ _ Hv), (getitem_present _ _ _ Hv). cbn [eval].
    rewrite Hok. cbn [negb]. apply emits_formatting, emits_print. exact I.
Qed.

(** C6, as the code has it.  In a document that passes the checks on
    the required fields, a [mode_override] outside plan, build, review
    that can be put into text makes validation return [False] with one
    violation that cites the value and the allowed list.  In every
    document whose [mode_override] is absent or one of the three, no
    such violation is printed. *)
Theorem mode_override_spec (file_path : string) (d : list (string * value)) :
  (forall v,
     snd (check_required (VDict d)) = Next ->
     lookup "mode_override" d = Some v ->
     ~ (v = VStr "plan" \/ v = VStr "build" \/ v = VStr "review") ->
     formattable v = true ->
     snd (verify_yaml_config file_path (Document (VDict d))) = Return false
     /\ violations (fst (verify_yaml_config file_path (Document (VDict d))))
        = [InvalidMode v ["plan"; "build"; "review"]])
  /\ (lookup "mode_override" d = None
      \/ (exists v, lookup "mode_override" d = Some v
                    /\ (v = VStr "plan" \/ v = VStr "build" \/ v = VStr "review")) ->
      forall v allowed,
        ~ In (InvalidMode v allowed)
             (fst (verify_yaml_config file_path (Document (VDict d))))).
Proof.
  split.
  - intros v Hreq Hv Hout Hfmt.
    assert (Hbad : among v valid_modes = false).
    { destruct (among v valid_modes) eqn:E; [ | done].
      apply among_valid_modes in E. done. }
    assert (Hsum : summary (verify_yaml_config file_path (Document (VDict d)))
                   = ([InvalidMode v valid_modes], Return false)).
    { rewrite summary_verify_document. unfold verify_loaded.
      rewrite summary_seq_quiet_l
        by (apply tidy_Next_quiet; [apply tidy_check_required | done]).
      unfold check_mode_override.
      rewrite (contains_present _ _ _ Hv), (getitem_present _ _ _ Hv). cbn [eval].
      rewrite Hbad. cbn [negb]. rewrite (formatting_one _ _ Hfmt). reflexivity. }
    by inversion Hsum.
  - intros Hok v allowed Hin.
    assert (Hemits : emits not_mode_violation
                       (verify_yaml_config file_path (Document (VDict d)))).
    { unfold verify_yaml_config, verify_loaded, safe_load, eval.
      assert (emits not_mode_violation (check_mode_override (VDict d))).
      { apply check_mode_override_no_mode.
        destruct Hok as [? | (w & Hw & Hw')]; [by left | right].
        exists w. split; [done | by apply among_valid_modes]. }
      auto 20 using check_required_no_mode, check_intelligence_no_mode,
        check_tools_no_mode, check_parameters_no_mode, report_other_fields_no_mode
        with emits. }
    unfold emits in Hemits. rewrite List.Forall_forall in Hemits.
    exact (Hemits _ Hin).
Qed.

Definition fast_mode_items : list (string * value) :=
  [("name", VStr "reviewer");
   ("description", VStr "Reviews code");
   ("prompt", VStr "You are a reviewer.");
   ("mode_override", VStr "fast")].

Lemma mode_override_spec_witness :
  (snd (verify_yaml_config "agent.yaml" (Document (VDict fast_mode_items))) = Return false
   /\ violations (fst (verify_yaml_config "agent.yaml" (Document (VDict fast_mode_items))))
      = [InvalidMode (VStr "fast") ["plan"; "build"; "review"]])
  /\ (forall v allowed,
        ~ In (InvalidMode v allowed)
             (fst (verify_yaml_config "agent.yaml" (Document (VDict no_description_items))))).
Proof.
  split.
  - apply (proj1 (mode_override_spec "agent.yaml" fast_mode_items) (VStr "fast")).
    + reflexivity.
    + reflexivity.
    + intros [H | [H | H]]; discriminate H.
    + reflexivity.
  - apply (proj2 (mode_override_spec "agent.yaml" no_description_items)).
    left. reflexivity.
Defined.

(** C6, as the claim has it, fails on a document that also lacks its
    name: the run ends at the missing name and the bad [mode_override]
    is never reported. *)
Definition nameless_fast_items : list (string * value) :=
  [("description", VStr "Reviews code");
   ("prompt", VStr "You are a reviewer.");
   ("mode_override", VStr "fast")].

Lemma bad_mode_unreported :
  lookup "mode_override" nameless_fast_items = Some (VStr "fast")
  /\ verify_yaml_config "agent.yaml" (Document (VDict nameless_fast_items))
     = ([Verifying "agent.yaml"; MissingRequired "name"], Return false)
  /\ (forall v allowed,
        ~ In (InvalidMode v allowed)
             (fst (verify_yaml_config "agent.yaml" (Document (VDict nameless_fast_items))))).
Proof.
  repeat split. intros v allowed. vm_compute. intuition discriminate.
Qed.

(** *** Tools *)

(** The mapping [d] with [v] stored under [k]. *)
Fixpoint set_key (k : string) (v : value) (d : list (string * value))
  : list (string * value) :=
  match d with
  | [] => [(k, v)]
  | (k', v') :: d' =>
      if String.eqb k k' then (k, v) :: d' else (k', v') :: set_key k v d'
  end.

Lemma lookup_set_key_eq k v d : lookup k (set_key k v d) = Some v.
Proof.
  induction d as [|[k' v'] d IH]; simpl.
  - by rewrite String.eqb_refl.
  - destruct (String.eqb k k') eqn:E; simpl; [by rewrite String.eqb_refl | ].
    by rewrite E.
Qed.

Lemma lookup_set_key_ne k k0 v d : k0 <> k -> lookup k0 (set_key k v d) = lookup k0 d.
Proof.
  intros Hne. induction d as [|[k' v'] d IH]; simpl.
  - destruct (String.eqb k0 k) eqn:E; [apply String.eqb_eq in E; done | done].
  - destruct (String.eqb k k') eqn:E; simpl.
    + apply String.eqb_eq in E. subst k'.
      destruct (String.eqb k0 k) eqn:E'; [apply String.eqb_eq in E'; done | done].
    + by rewrite IH.
Qed.

Section OtherKeys.
Variables d d' : list (string * value).
Hypothesis same : forall k, k <> "tools" -> lookup k d' = lookup k d.

Ltac by_lookups :=
  cbn [for_each contains getitem required other_fields];
  rewrite !same by discriminate; reflexivity.

Lemma check_required_other_keys : check_required (VDict d') = check_required (VDict d).
Proof. unfold check_required, check_required_field. by_lookups. Qed.

Lemma check_mode_override_other_keys :
  check_mode_override (VDict d') = check_mode_override (VDict d).
Proof. unfold check_mode_override. by_lookups. Qed.

Lemma check_intelligence_other_keys :
  check_intelligence (VDict d') = check_intelligence (VDict d).
Proof. unfold check_intelligence. by_lookups. Qed.

Lemma check_parameters_other_keys :
  check_parameters (VDict d') = check_parameters (VDict d).
Proof. unfold check_parameters. by_lookups. Qed.

Lemma report_other_fields_other_keys :
  report_other_fields (VDict d') = report_other_fields (VDict d).
Proof. unfold report_other_fields, report_other_field. by_lookups. Qed.
End OtherKeys.

Lemma check_tools_list d tools :
  lookup "tools" d = Some (VList tools) ->
  check_tools (VDict d)
  = (print (ToolsConfigured (List.length tools)) ;; for_each check_tool tools).
Proof.
  intros H. unfold check_tools.
  by rewrite (contains_present _ _ _ H), (getitem_present _ _ _ H).
Qed.

Lemma check_tool_restricted tool name :
  lookup "name" tool = Some name ->
  formattable name = true ->
  lookup "permission" tool = Some (VStr "restricted") ->
  lookup "restrictions" tool = None ->
  check_tool (VDict tool) = ([ToolOk name (VStr "restricted") None], Next).
Proof.
  intros Hname Hfmt Hperm Hrestr. unfold check_tool.
  rewrite (contains_present _ _ _ Hname), (contains_present _ _ _ Hperm),
    (getitem_present _ _ _ Hperm), (getitem_present _ _ _ Hname),
    (contains_absent _ _ Hrestr).
  unfold formatting. cbn [eval forallb]. rewrite Hfmt. reflexivity.
Qed.

(** C7.  A tool entry with a [name] that can be put into text, the
    permission ["restricted"] and no [restrictions] is accepted as it
    is: its line is printed and the loop goes on.  So the verdict on a document, and the violations
    reported with it, are those of the document without that entry; in
    particular the document validates when it does so without the
    entry, and no violation is reported. *)
Theorem restricted_without_restrictions (file_path : string)
    (d : list (string * value)) (before after : list value)
    (tool : list (string * value)) (name : value) :
  lookup "tools" d = Some (VList (before ++ VDict tool :: after)) ->
  lookup "name" tool = Some name ->
  formattable name = true ->
  lookup "permission" tool = Some (VStr "restricted") ->
  lookup "restrictions" tool = None ->
  check_tool (VDict tool) = ([ToolOk name (VStr "restricted") None], Next)
  /\ summary (verify_yaml_config file_path (Document (VDict d)))
     = summary (verify_yaml_config file_path
                  (Document (VDict (set_key "tools" (VList (before ++ after)) d))))
  /\ (snd (verify_yaml_config file_path
             (Document (VDict (set_key "tools" (VList (before ++ after)) d))))
      = Return true ->
      snd (verify_yaml_config file_path (Document (VDict d))) = Return true
      /\ violations (fst (verify_yaml_config file_path (Document (VDict d)))) = []).
Proof.
  intros Htools Hname Hfmt Hperm Hrestr.
  pose proof (check_tool_restricted _ _ Hname Hfmt Hperm Hrestr) as Htool.
  set (d' := set_key "tools" (VList (before ++ after)) d).
  assert (Hsame : forall k, k <> "tools" -> lookup k d' = lookup k d)
    by (intros k Hk; by apply lookup_set_key_ne).
  assert (Hsum : summary (verify_yaml_config file_path (Document (VDict d)))
                 = summary (verify_yaml_config file_path (Document (VDict d')))).
  { rewrite !summary_verify_document. unfold verify_loaded.
    rewrite (check_required_other_keys d d' Hsame),
      (check_mode_override_other_keys d d' Hsame),
      (check_intelligence_other_keys d d' Hsame),
      (check_parameters_other_keys d d' Hsame),
      (report_other_fields_other_keys d d' Hsame).
    repeat (apply summary_seq; [reflexivity | ]).
    apply summary_seq; [ | reflexivity].
    rewrite (check_tools_list d _ Htools).
    rewrite (check_tools_list d' (before ++ after)) by apply lookup_set_key_eq.
    apply summary_seq; [reflexivity | ].
    rewrite !for_each_app. apply summary_seq; [reflexivity | ].
    simpl for_each. rewrite summary_seq_quiet_l; [reflexivity | ].
    by rewrite Htool. }
  split; [exact Htool | ]. split; [exact Hsum | ].
  intros Hok. pose proof (f_equal snd Hsum) as Hf. unfold summary in Hf. cbn [snd] in Hf.
  rewrite Hok in Hf. split; [exact Hf | ].
  pose proof (tidy_verify_yaml_config file_path (Document (VDict d))) as Htidy.
  unfold tidy in Htidy. by rewrite Hf in Htidy.
Qed.

Definition restricted_tool_items : list (string * value) :=
  [("name", VStr "reviewer");
   ("description", VStr "Reviews code");
   ("prompt", VStr "You are a reviewer.");
   ("tools", VList [VDict [("name", VStr "search"); ("permission", VStr "allow")];
                    VDict [("name", VStr "shell"); ("permission", VStr "restricted")]])].

Lemma restricted_without_restrictions_witness :
  snd (verify_yaml_config "agent.yaml" (Document (VDict restricted_tool_items)))
  = Return true
  /\ violations (fst (verify_yaml_config "agent.yaml" (Document (VDict restricted_tool_items))))
     = [].
Proof.
  apply (restricted_without_restrictions "agent.yaml" restricted_tool_items
           [VDict [("name", VStr "search"); ("permission", VStr "allow")]] []
           [("name", VStr "shell"); ("permission", VStr "restricted")] (VStr "shell"));
    reflexivity.
Defined.

(** *** The scan of [main] *)

#[local] Arguments verify_yaml_config : simpl never.

Definition log_of (e : entry) : list event :=
  fst (verify_yaml_config (entry_name e) (entry_file e)).

(** The verdict [main] draws from a call. *)
Definition passes (e : entry) : bool :=
  match snd (verify_yaml_config (entry_name e) (entry_file e)) with
  | Return b => b
  | _ => false
  end.

(** The call on [e] comes back to [main]. *)
Definition returns (e : entry) : Prop :=
  forall x, snd (verify_yaml_config (entry_name e) (entry_file e)) <> Raised x.

Definition created_log (example_dir : option (list entry)) : list event :=
  match example_dir with
  | None => [CreatingDirectory]
  | Some _ => []
  end.

Lemma verify_each_returns (files : list entry) (all_valid : bool) :
  Forall returns files ->
  verify_each files all_valid
  = (flat_map log_of files, Val (all_valid && forallb passes files)).
Proof.
  intros H. revert all_valid.
  induction H as [|e files He Hfiles IH]; intros all_valid;
    cbn [verify_each flat_map forallb].
  - by rewrite andb_true_r.
  - unfold returns in He. unfold log_of at 1. unfold passes at 1.
    destruct (verify_yaml_config (entry_name e) (entry_file e)) as [out fl].
    cbn [fst snd] in *. destruct fl as [ | b | x]; [ | | by destruct (He x)];
      rewrite IH; f_equal; f_equal.
    + by rewrite andb_false_r.
    + by destruct b, all_valid.
Qed.

Lemma verify_each_raises (before after : list entry) (e : entry) (x : exn)
    (all_valid : bool) :
  Forall returns before ->
  snd (verify_yaml_config (entry_name e) (entry_file e)) = Raised x ->
  verify_each (before ++ e :: after) all_valid
  = (flat_map log_of before ++ log_of e, Exc x).
Proof.
  intros H Hx. revert all_valid.
  induction H as [|e' before He' Hbefore IH]; intros all_valid;
    cbn [verify_each flat_map app].
  - unfold log_of.
    destruct (verify_yaml_config (entry_name e) (entry_file e)) as [out fl].
    cbn [fst snd] in *. by subst fl.
  - unfold returns in He'. unfold log_of at 1.
    destruct (verify_yaml_config (entry_name e') (entry_file e')) as [out fl].
    cbn [fst snd] in *. destruct fl as [ | b | y]; [ | | by destruct (He' y)];
      by rewrite IH, app_assoc.
Qed.

Lemma verify_unparsed (file_path : string) :
  verify_yaml_config file_path Malformed = ([Verifying file_path], Raised YAMLError)
  /\ verify_yaml_config file_path Unreadable = ([Verifying file_path], Raised OSError).
Proof. by split. Qed.

(** C3, as the code has it.  A file that fails validation has its
    violation printed and the scan goes on: when every call comes back,
    [main] verifies each discovered file in turn and ends with its
    summary, all valid exactly when each call returned [True].  A file
    that cannot be parsed makes [yaml.safe_load] raise, and nothing
    catches it: the scan ends there with the exception, and the files
    after it are not verified. *)
Theorem scan_spec (example_dir : option (list entry)) :
  (yaml_files (default [] example_dir) <> [] ->
   Forall returns (yaml_files (default [] example_dir)) ->
   main example_dir
   = (created_log example_dir
        ++ Found (List.length (yaml_files (default [] example_dir)))
        :: flat_map log_of (yaml_files (default [] example_dir))
        ++ [if forallb passes (yaml_files (default [] example_dir))
            then AllValid else SomeErrors],
      Val tt))
  /\ (forall before e after x,
        yaml_files (default [] example_dir) = before ++ e :: after ->
        Forall returns before ->
        snd (verify_yaml_config (entry_name e) (entry_file e)) = Raised x ->
        main example_dir
        = (created_log example_dir
             ++ Found (List.length (yaml_files (default [] example_dir)))
             :: flat_map log_of before ++ log_of e,
           Exc x))
  /\ (forall e,
        snd (verify_yaml_config (entry_name e) (entry_file e)) = Return false ->
        returns e /\ passes e = false)
  /\ (forall e,
        entry_file e = Malformed ->
        verify_yaml_config (entry_name e) (entry_file e)
        = ([Verifying (entry_name e)], Raised YAMLError)).
Proof.
  unfold main. fold (created_log example_dir).
  set (files := yaml_files (default [] example_dir)).
  split; [ | split; [ | split]].
  - intros Hne Hret. rewrite (verify_each_returns _ _ Hret). simpl.
    by destruct files.
  - intros before e after x Hsplit Hret Hx.
    replace (verify_each files true) with (verify_each (before ++ e :: after) true)
      by (by rewrite Hsplit).
    rewrite (verify_each_raises _ _ _ _ _ Hret Hx).
    destruct files; [by destruct before | done].
  - intros e He. unfold returns, passes. rewrite He. by split.
  - intros e He. by rewrite He.
Qed.

(** A directory whose first file is not YAML. *)
Definition minimal_items : list (string * value) :=
  [("name", VStr "reviewer");
   ("description", VStr "Reviews code");
   ("prompt", VStr "You are a reviewer.")].

Definition broken_first : list entry :=
  [Entry "broken.yaml" Malformed; Entry "reviewer.yaml" (Document (VDict minimal_items))].

Definition invalid_first : list entry :=
  [Entry "nameless.yaml" (Document (VDict nameless_fast_items));
   Entry "reviewer.yaml" (Document (VDict minimal_items))].

Lemma scan_spec_witness :
  main (Some invalid_first)
  = ([Found 2;
      Verifying "nameless.yaml"; MissingRequired "name";
      Verifying "reviewer.yaml";
      FieldOk "name" (VStr "reviewer") false;
      FieldOk "description" (VStr "Reviews code") false;
      FieldOk "prompt" (VStr "You are a reviewer.") false;
      ConfigurationValid;
      SomeErrors],
     Val tt)
  /\ main (Some broken_first) = ([Found 2; Verifying "broken.yaml"], Exc YAMLError).
Proof.
  split.
  - apply (proj1 (scan_spec (Some invalid_first))).
    + discriminate.
    + repeat constructor; intros x; discriminate.
  - apply (proj1 (proj2 (scan_spec (Some broken_first)))
             [] (Entry "broken.yaml" Malformed)
             [Entry "reviewer.yaml" (Document (VDict minimal_items))] YAMLError).
    + reflexivity.
    + constructor.
    + reflexivity.
Defined.

(** C3, as the claim has it, fails on a directory whose first file is
    not YAML: [main] ends with the exception and the valid file after it
    is never verified. *)
Lemma parse_error_halts_scan :
  In (Entry "reviewer.yaml" (Document (VDict minimal_items))) (yaml_files broken_first)
  /\ main (Some broken_first) = ([Found 2; Verifying "broken.yaml"], Exc YAMLError)
  /\ ~ In (Verifying "reviewer.yaml") (fst (main (Some broken_first))).
Proof.
  split; [right; left; reflexivity | ].
  split; [reflexivity | ].
  vm_compute. intuition discriminate.
Qed.

(** *** Which files [main] looks at *)

Lemma In_glob suffix dir e :
  In e (glob suffix dir) <-> In e dir /\ has_suffix suffix (entry_name e) = true.
Proof. unfold glob. apply List.filter_In. Qed.

Lemma In_yaml_files dir e :
  In e (yaml_files dir)
  <-> In e dir /\ (has_suffix ".yaml" (entry_name e) = true
                   \/ has_suffix ".yml" (entry_name e) = true).
Proof. unfold yaml_files. rewrite List.in_app_iff, !In_glob. tauto. Qed.

Lemma toml_prefix_conflict (r : string) :
  String.prefix "lmot." r = true ->
  String.prefix "lmay." r = false /\ String.prefix "lmy." r = false.
Proof.
  intros H. apply String.prefix_correct in H.
  destruct r as [|c1 [|c2 [|c3 [|c4 [|c5 r]]]]]; try discriminate H.
  cbn [String.length String.substring] in H. inversion H; subst.
  split; reflexivity.
Qed.

Lemma toml_not_yaml (name : string) :
  has_suffix ".toml" name = true ->
  has_suffix ".yaml" name = false /\ has_suffix ".yml" name = false.
Proof. unfold has_suffix. apply toml_prefix_conflict. Qed.

Lemma log_of_head (e : entry) : In (Verifying (entry_name e)) (log_of e).
Proof.
  unfold log_of, verify_yaml_config.
  destruct (eval (safe_load (entry_file e)) (fun config => verify_loaded config)).
  left. reflexivity.
Qed.

Lemma main_all_return (example_dir : option (list entry)) :
  yaml_files (default [] example_dir) <> [] ->
  Forall returns (yaml_files (default [] example_dir)) ->
  main example_dir
  = (created_log example_dir
       ++ Found (List.length (yaml_files (default [] example_dir)))
       :: flat_map log_of (yaml_files (default [] example_dir))
       ++ [if forallb passes (yaml_files (default [] example_dir))
           then AllValid else SomeErrors],
     Val tt).
Proof.
  unfold main. fold (created_log example_dir).
  intros Hne Hret. rewrite (verify_each_returns _ _ Hret). simpl.
  by destruct (yaml_files (default [] example_dir)).
Qed.

(** C5, as the code has it.  [main] looks at exactly the entries of
    [example-agents] whose name ends in [.yaml] or [.yml], those in
    [.yaml] first; an entry in [.toml] is never among them.  Every file
    it looks at goes to [verify_yaml_config], that is to the YAML
    loader: when all the calls come back, each has printed its header. *)
Theorem discovery_spec (dir : list entry) :
  yaml_files dir = glob ".yaml" dir ++ glob ".yml" dir
  /\ (forall e,
        In e (yaml_files dir)
        <-> In e dir /\ (has_suffix ".yaml" (entry_name e) = true
                         \/ has_suffix ".yml" (entry_name e) = true))
  /\ (forall e, has_suffix ".toml" (entry_name e) = true -> ~ In e (yaml_files dir))
  /\ (Forall returns (yaml_files dir) ->
      forall e, In e (yaml_files dir) ->
                In (Verifying (entry_name e)) (fst (main (Some dir)))).
Proof.
  split; [reflexivity | ]. split; [apply In_yaml_files | ]. split.
  - intros e Htoml Hin. apply In_yaml_files in Hin as [_ Hin].
    destruct (toml_not_yaml _ Htoml) as [Hyaml Hyml].
    destruct Hin; congruence.
  - intros Hret e Hin.
    rewrite (main_all_return (Some dir)); [ | by intros E; simpl in E; rewrite E in Hin | done].
    simpl. right. apply List.in_app_iff. left.
    apply List.in_flat_map. exists e. split; [done | apply log_of_head].
Qed.

Definition mixed_dir : list entry :=
  [Entry "planner.toml" (Document (VDict minimal_items));
   Entry "helper.yml" (Document (VDict minimal_items));
   Entry "reviewer.yaml" (Document (VDict minimal_items))].

Lemma discovery_spec_witness :
  yaml_files mixed_dir
  = [Entry "reviewer.yaml" (Document (VDict minimal_items));
     Entry "helper.yml" (Document (VDict minimal_items))]
  /\ ~ In (Entry "planner.toml" (Document (VDict minimal_items))) (yaml_files mixed_dir)
  /\ In (Verifying "helper.yml") (fst (main (Some mixed_dir))).
Proof.
  destruct (discovery_spec mixed_dir) as (Hfiles & _ & Htoml & Hlog).
  split; [rewrite Hfiles; reflexivity | ]. split.
  - apply Htoml. reflexivity.
  - apply (Hlog ltac:(repeat constructor; intros x; discriminate)
                (Entry "helper.yml" (Document (VDict minimal_items)))).
    right. left. reflexivity.
Defined.

(** C5, as the claim has it, fails on a directory that holds a TOML
    file: the file is not looked at. *)
Definition toml_only : list entry :=
  [Entry "reviewer.toml" (Document (VDict minimal_items))].

Lemma toml_not_discovered :
  has_suffix ".toml" "reviewer.toml" = true
  /\ yaml_files toml_only = []
  /\ main (Some toml_only) = ([NoFilesFound], Val tt).
Proof. repeat split. Qed.

End VerifyProps.

(** ** The loader over two scopes *)

Module ResolverProps.
Import Py VerifyYamlConfig ScopeResolver.
Local Open Scope list_scope.

Abbreviation merged := (gmap string agent_config * list (string * stmt))%type.

Lemma load_accepts (e : entry) (d : list (string * value)) (n : string) :
  entry_file e = Document (VDict d) ->
  snd (verify_yaml_config (entry_name e) (entry_file e)) = Return true ->
  lookup "name" d = Some (VStr n) ->
  load e = Some (n, VDict d).
Proof. intros Hfile Hvalid Hname. unfold load. by rewrite Hvalid, Hfile, Hname. Qed.

Lemma merge_file_accepts o (acc : merged) e n doc :
  load e = Some (n, doc) ->
  fst (merge_file o acc e) !! n = Some (AgentConfig doc o).
Proof.
  intros Hload. unfold merge_file. rewrite Hload. simpl.
  apply lookup_insert_eq.
Qed.

Lemma merge_file_other o (acc : merged) e n :
  agent_of e <> Some n -> fst (merge_file o acc e) !! n = fst acc !! n.
Proof.
  unfold agent_of, merge_file.
  destruct (load e) as [[n' doc]|]; [ | done].
  intros Hne. simpl. apply lookup_insert_ne. congruence.
Qed.

Lemma fold_merge_other o files (acc : merged) n :
  Forall (fun q => agent_of q <> Some n) files ->
  fst (fold_left (merge_file o) files acc) !! n = fst acc !! n.
Proof.
  intros H. revert acc.
  induction H as [|e files He Hfiles IH]; intros acc; simpl; [done | ].
  rewrite IH. by apply merge_file_other.
Qed.

Lemma merge_file_origin o (acc : merged) e n :
  (exists c, fst acc !! n = Some c /\ origin_of c = o) ->
  exists c, fst (merge_file o acc e) !! n = Some c /\ origin_of c = o.
Proof.
  intros (c & Hc & Ho). unfold merge_file.
  destruct (load e) as [[n' doc]|]; [ | eauto]. simpl.
  destruct (decide (n' = n)) as [-> | Hne].
  - exists (AgentConfig doc o). by rewrite lookup_insert_eq.
  - exists c. by rewrite lookup_insert_ne.
Qed.

Lemma fold_merge_origin o files (acc : merged) n :
  (exists c, fst acc !! n = Some c /\ origin_of c = o) ->
  exists c, fst (fold_left (merge_file o) files acc) !! n = Some c /\ origin_of c = o.
Proof.
  revert acc.
  induction files as [|e files IH]; intros acc H; simpl; [done | ].
  apply IH. by apply merge_file_origin.
Qed.

Lemma fold_merge_has o files (acc : merged) g n doc :
  In g files -> load g = Some (n, doc) ->
  exists c, fst (fold_left (merge_file o) files acc) !! n = Some c /\ origin_of c = o.
Proof.
  intros Hin Hload. revert acc.
  induction files as [|e files IH]; intros acc; [done | ].
  destruct Hin as [-> | Hin].
  - apply (fold_merge_origin o files (merge_file o acc g) n).
    exists (AgentConfig doc o). split; [by apply merge_file_accepts | done].
  - apply (IH Hin).
Qed.

(** The entries a mapping holds under one name. *)
Definition entries_named (n : string) (m : gmap string agent_config)
  : list (string * agent_config) :=
  filter (fun kv => fst kv = n) (map_to_list m).

Lemma entries_named_lookup n (m : gmap string agent_config) c :
  m !! n = Some c -> entries_named n m = [(n, c)].
Proof.
  intros Hc. unfold entries_named.
  apply Permutation_singleton_r.
  rewrite <- (map_to_list_delete m n c Hc).
  rewrite filter_cons_True by done.
  apply Permutation_skip.
  assert (Hnone : filter (fun kv : string * agent_config => fst kv = n)
                    (map_to_list (delete n m)) = []).
  { apply elem_of_nil_inv. intros [k c'] Hin.
    apply list_elem_of_filter in Hin as [Hk Hin]. simpl in Hk. subst k.
    apply elem_of_map_to_list in Hin. by rewrite lookup_delete_eq in Hin. }
  by rewrite Hnone.
Qed.


(** The scenario of the specification, with both files in YAML: the
    reviewer with intelligence hard in the global directory, with
    intelligence light in the project directory. *)
Definition reviewer (level : string) : list (string * value) :=
  [("name", VStr "reviewer");
   ("description", VStr "Reviews code");
   ("prompt", VStr "You are a reviewer.");
   ("intelligence", VStr level)].

Definition global_reviewer : entry := Entry "reviewer.yaml" (Document (VDict (reviewer "hard"))).
Definition project_reviewer : entry := Entry "reviewer.yml" (Document (VDict (reviewer "light"))).


(** A reviewer whose intelligence is not allowed, and the
    [reviewer.toml] of the specification. *)
Definition rejected_reviewer : entry :=
  Entry "reviewer.yaml" (Document (VDict (reviewer "genius"))).

Definition toml_reviewer : entry :=
  Entry "reviewer.toml" (Document (VDict (reviewer "light"))).


End ResolverProps.

(** ** More on the configuration checker *)

Module VerifyExtra.
Import Py VerifyYamlConfig VerifyProps.
Local Open Scope stmt_scope.
Local Open Scope list_scope.

#[local] Arguments among : simpl never.

(** *** A document that is a mapping: each check by the fields it reads *)

Ltac key_in :=
  cbn in *; first [tauto | repeat (first [left; reflexivity | right])].

Lemma check_required_agree d d' :
  (forall k, In k required -> lookup k d' = lookup k d) ->
  check_required (VDict d') = check_required (VDict d).
Proof.
  intros same. unfold check_required, check_required_field.
  cbn [for_each contains getitem required].
  rewrite !same by key_in.
  reflexivity.
Qed.

Lemma check_mode_override_agree d d' :
  lookup "mode_override" d' = lookup "mode_override" d ->
  check_mode_override (VDict d') = check_mode_override (VDict d).
Proof. intros same. unfold check_mode_override. cbn [contains getitem]. by rewrite same. Qed.

Lemma check_intelligence_agree d d' :
  lookup "intelligence" d' = lookup "intelligence" d ->
  check_intelligence (VDict d') = check_intelligence (VDict d).
Proof. intros same. unfold check_intelligence. cbn [contains getitem]. by rewrite same. Qed.

Lemma check_tools_agree d d' :
  lookup "tools" d' = lookup "tools" d ->
  check_tools (VDict d') = check_tools (VDict d).
Proof. intros same. unfold check_tools. cbn [contains getitem]. by rewrite same. Qed.

Lemma check_parameters_agree d d' :
  lookup "parameters" d' = lookup "parameters" d ->
  check_parameters (VDict d') = check_parameters (VDict d).
Proof. intros same. unfold check_parameters. cbn [contains getitem]. by rewrite same. Qed.

Lemma report_other_fields_agree d d' :
  (forall k, In k other_fields -> lookup k d' = lookup k d) ->
  report_other_fields (VDict d') = report_other_fields (VDict d).
Proof.
  intros same. unfold report_other_fields, report_other_field.
  cbn [for_each contains getitem other_fields].
  rewrite !same by key_in.
  reflexivity.
Qed.

Lemma report_other_field_quiet d field : quiet (report_other_field (VDict d) field).
Proof.
  unfold report_other_field. destruct (lookup field d) as [v|] eqn:E.
  - rewrite (contains_present _ _ _ E), (getitem_present _ _ _ E).
    by destruct v.
  - by rewrite (contains_absent _ _ E).
Qed.

Lemma report_other_fields_quiet d : quiet (report_other_fields (VDict d)).
Proof.
  unfold report_other_fields. apply quiet_for_each.
  apply List.Forall_forall. intros field _. apply report_other_field_quiet.
Qed.

(** The fields whose value decides the verdict, and those the checker
    reads at all. *)
Definition checked_keys : list string :=
  required ++ ["mode_override"; "intelligence"; "tools"; "parameters"].

Definition read_keys : list string := checked_keys ++ other_fields.

(** X1.  The checker reads ten fields and nothing else: two documents
    that agree on them print the same lines and end the same way, so a
    field the checker does not know, or the order of the fields, changes
    nothing. *)
Theorem unknown_fields_ignored (file_path : string) (d d' : list (string * value)) :
  (forall k, In k read_keys -> lookup k d' = lookup k d) ->
  verify_yaml_config file_path (Document (VDict d'))
  = verify_yaml_config file_path (Document (VDict d)).
Proof.
  intros same. rewrite !verify_document. unfold verify_loaded.
  rewrite (check_required_agree d d'), (check_mode_override_agree d d'),
    (check_intelligence_agree d d'), (check_tools_agree d d'),
    (check_parameters_agree d d'), (report_other_fields_agree d d');
    try reflexivity; intros; apply same; key_in.
Qed.

Definition reviewer_items : list (string * value) :=
  [("name", VStr "reviewer");
   ("description", VStr "Reviews code");
   ("prompt", VStr "You are a reviewer.");
   ("mode_override", VStr "review")].

Definition reviewer_items_extended : list (string * value) :=
  [("owner", VStr "platform");
   ("mode_override", VStr "review");
   ("prompt", VStr "You are a reviewer.");
   ("description", VStr "Reviews code");
   ("name", VStr "reviewer");
   ("version", VInt 2)].

Lemma unknown_fields_ignored_witness :
  verify_yaml_config "agent.yaml" (Document (VDict reviewer_items_extended))
  = verify_yaml_config "agent.yaml" (Document (VDict reviewer_items)).
Proof.
  apply unknown_fields_ignored. intros k Hk. cbn in Hk.
  repeat (destruct Hk as [<- | Hk]; [reflexivity | ]). destruct Hk.
Defined.

(** X2.  [tags], [file_patterns] and [metadata] are only counted: two
    documents that agree on the seven other fields get the same verdict
    and the same violations, whatever these three hold. *)
Theorem other_fields_never_fail (file_path : string) (d d' : list (string * value)) :
  (forall k, In k checked_keys -> lookup k d' = lookup k d) ->
  summary (verify_yaml_config file_path (Document (VDict d')))
  = summary (verify_yaml_config file_path (Document (VDict d))).
Proof.
  intros same. rewrite !summary_verify_document. unfold verify_loaded.
  rewrite (check_required_agree d d'), (check_mode_override_agree d d'),
    (check_intelligence_agree d d'), (check_tools_agree d d'),
    (check_parameters_agree d d');
    try (intros; apply same; key_in).
  repeat (apply summary_seq; [reflexivity | ]).
  rewrite (summary_seq_quiet_l (report_other_fields (VDict d')))
    by apply report_other_fields_quiet.
  rewrite (summary_seq_quiet_l (report_other_fields (VDict d)))
    by apply report_other_fields_quiet.
  reflexivity.
Qed.

Definition reviewer_items_tagged : list (string * value) :=
  reviewer_items ++ [("tags", VInt 7); ("metadata", VStr "none")].

Lemma other_fields_never_fail_witness :
  summary (verify_yaml_config "agent.yaml" (Document (VDict reviewer_items_tagged)))
  = summary (verify_yaml_config "agent.yaml" (Document (VDict reviewer_items))).
Proof.
  apply other_fields_never_fail. intros k Hk. cbn in Hk.
  repeat (destruct Hk as [<- | Hk]; [reflexivity | ]). destruct Hk.
Defined.

(** *** Which check prints which line *)

(** The part of the script a line comes from: the header, the five
    checks in their order, the count of the other fields, the closing
    line, and [main]. *)
Definition phase (e : event) : nat :=
  match e with
  | Verifying _ => 0
  | MissingRequired _ | FieldOk _ _ _ => 1
  | InvalidMode _ _ | ModeOk _ => 2
  | InvalidIntelligence _ _ | IntelligenceOk _ => 3
  | ToolsConfigured _ | ToolMissingName | InvalidPermission _ _ | ToolOk _ _ _ => 4
  | ParametersDefined _ | ParameterMissing _ | ParameterOk _ _ => 5
  | OtherItems _ _ | OtherEntries _ _ => 6
  | ConfigurationValid => 7
  | CreatingDirectory | NoFilesFound | Found _ | AllValid | SomeErrors => 8
  end.

Definition in_phase (k : nat) (s : stmt) : Prop := emits (fun e => phase e = k) s.

#[local] Hint Resolve emits_skip emits_ret emits_seq emits_formatting : emits.
#[local] Hint Extern 1 (emits _ (print _)) => (apply emits_print; reflexivity) : emits.
#[local] Hint Extern 2 (emits _ (eval _ _)) => (apply emits_eval; intros) : emits.
#[local] Hint Extern 2 (emits _ (for_each _ _)) => (apply emits_for_each; intros) : emits.
#[local] Hint Extern 3 (emits _ (if ?b then _ else _)) => destruct b : emits.
#[local] Hint Extern 3 (emits _ (match ?v with _ => _ end)) => destruct v : emits.

Lemma check_required_phase config : in_phase 1 (check_required config).
Proof. unfold in_phase, check_required, check_required_field. auto 20 with emits. Qed.

Lemma check_mode_override_phase config : in_phase 2 (check_mode_override config).
Proof. unfold in_phase, check_mode_override. auto 20 with emits. Qed.

Lemma check_intelligence_phase config : in_phase 3 (check_intelligence config).
Proof. unfold in_phase, check_intelligence. auto 20 with emits. Qed.

Lemma check_tools_phase config : in_phase 4 (check_tools config).
Proof. unfold in_phase, check_tools, check_tool. auto 30 with emits. Qed.

Lemma check_parameters_phase config : in_phase 5 (check_parameters config).
Proof. unfold in_phase, check_parameters, check_parameter. auto 30 with emits. Qed.

Lemma report_other_fields_phase config : in_phase 6 (report_other_fields config).
Proof. unfold in_phase, report_other_fields, report_other_field. auto 20 with emits. Qed.

Lemma emits_weaken (P Q : event -> Prop) (s : stmt) :
  (forall e, P e -> Q e) -> emits P s -> emits Q s.
Proof. unfold emits. intros H. apply List.Forall_impl. exact H. Qed.

(** A block that never ends with [return True]. *)
Definition no_verdict (s : stmt) : Prop := snd s <> Return true.

Lemma no_verdict_seq s1 s2 : no_verdict s1 -> no_verdict s2 -> no_verdict (s1 ;; s2).
Proof. unfold no_verdict. rewrite flow_seq. by destruct (snd s1). Qed.

Lemma no_verdict_eval {A : Type} (e : res A) (k : A -> stmt) :
  (forall a, no_verdict (k a)) -> no_verdict (eval e k).
Proof. intros H. destruct e as [a | x]; [apply H | done]. Qed.

Lemma no_verdict_for_each {A : Type} (body : A -> stmt) (l : list A) :
  (forall x, no_verdict (body x)) -> no_verdict (for_each body l).
Proof.
  intros H. induction l as [|x l IH]; [done | ].
  simpl. by apply no_verdict_seq.
Qed.

Lemma no_verdict_formatting (vs : list value) (s : stmt) :
  no_verdict s -> no_verdict (formatting vs s).
Proof. unfold formatting. by destruct (forallb formattable vs). Qed.

Create HintDb verdict.
#[local] Hint Resolve no_verdict_seq no_verdict_formatting : verdict.
#[local] Hint Extern 1 (no_verdict skip) => discriminate : verdict.
#[local] Hint Extern 1 (no_verdict (print _)) => discriminate : verdict.
#[local] Hint Extern 1 (no_verdict (ret false)) => discriminate : verdict.
#[local] Hint Extern 2 (no_verdict (eval _ _)) => (apply no_verdict_eval; intros) : verdict.
#[local] Hint Extern 2 (no_verdict (for_each _ _)) =>
  (apply no_verdict_for_each; intros) : verdict.
#[local] Hint Extern 3 (no_verdict (if ?b then _ else _)) => destruct b : verdict.
#[local] Hint Extern 3 (no_verdict (match ?v with _ => _ end)) => destruct v : verdict.

Lemma checks_no_verdict config :
  no_verdict (check_required config ;; check_mode_override config ;;
              check_intelligence config ;; check_tools config ;;
              check_parameters config ;; report_other_fields config).
Proof.
  unfold check_required, check_required_field, check_mode_override, check_intelligence,
    check_tools, check_tool, check_parameters, check_parameter,
    report_other_fields, report_other_field.
  auto 40 with verdict.
Qed.

Lemma in_phase_other (k k' : nat) (s : stmt) :
  k <> k' -> in_phase k s -> emits (fun e => phase e <> k') s.
Proof. intros Hne. apply emits_weaken. intros e He. congruence. Qed.

Lemma checks_phase config :
  emits (fun e => phase e <> 7%nat)
    (check_required config ;; check_mode_override config ;;
     check_intelligence config ;; check_tools config ;;
     check_parameters config ;; report_other_fields config).
Proof.
  apply emits_seq;
    [apply (in_phase_other 1); [discriminate | apply check_required_phase] | ].
  apply emits_seq;
    [apply (in_phase_other 2); [discriminate | apply check_mode_override_phase] | ].
  apply emits_seq;
    [apply (in_phase_other 3); [discriminate | apply check_intelligence_phase] | ].
  apply emits_seq;
    [apply (in_phase_other 4); [discriminate | apply check_tools_phase] | ].
  apply emits_seq;
    [apply (in_phase_other 5); [discriminate | apply check_parameters_phase] | ].
  apply (in_phase_other 6); [discriminate | apply report_other_fields_phase].
Qed.

Lemma verify_loaded_split config :
  verify_loaded config
  = ((check_required config ;; check_mode_override config ;;
      check_intelligence config ;; check_tools config ;;
      check_parameters config ;; report_other_fields config) ;;
     print ConfigurationValid ;; ret true).
Proof. unfold verify_loaded. by rewrite !seq_assoc. Qed.

(** X3.  The checker returns [True] exactly when it has printed that
    the configuration is valid; that line is then the last one, and no
    violation comes before it. *)
Theorem valid_line_iff_true (file_path : string) (f : file) :
  (snd (verify_yaml_config file_path f) = Return true
   <-> In ConfigurationValid (fst (verify_yaml_config file_path f)))
  /\ (snd (verify_yaml_config file_path f) = Return true ->
      List.last (fst (verify_yaml_config file_path f)) (Verifying file_path)
      = ConfigurationValid
      /\ violations (fst (verify_yaml_config file_path f)) = []).
Proof.
  assert (Hcases :
    (snd (verify_yaml_config file_path f) = Return true
     /\ exists pre, fst (verify_yaml_config file_path f) = pre ++ [ConfigurationValid])
    \/ (snd (verify_yaml_config file_path f) <> Return true
        /\ ~ In ConfigurationValid (fst (verify_yaml_config file_path f)))).
  { destruct f as [ | | config]; [right; split; [done | by intros [? | []]] .. | ].
    rewrite verify_document, verify_loaded_split.
    pose proof (checks_no_verdict config) as Hnv.
    pose proof (checks_phase config) as Hph.
    destruct (check_required config ;; check_mode_override config ;;
              check_intelligence config ;; check_tools config ;;
              check_parameters config ;; report_other_fields config)
      as [out [ | b | x]] eqn:E.
    - left. split; [done | ]. exists (Verifying file_path :: out). by rewrite <- app_comm_cons.
    - right. split; [exact Hnv | ]. simpl. intros [? | Hin]; [done | ].
      unfold emits in Hph. rewrite List.Forall_forall in Hph. by apply (Hph _ Hin).
    - right. split; [done | ]. simpl. intros [? | Hin]; [done | ].
      unfold emits in Hph. rewrite List.Forall_forall in Hph. by apply (Hph _ Hin). }
  split.
  - destruct Hcases as [[Ht [pre Hpre]] | [Hnt Hnin]].
    + split; [ | done]. intros _. rewrite Hpre. apply List.in_app_iff. right. by left.
    + split; [done | ]. intros Hin. by destruct Hnin.
  - intros Ht. destruct Hcases as [[_ [pre Hpre]] | [Hnt _]]; [ | done].
    split; [rewrite Hpre; apply List.last_last | ].
    pose proof (tidy_verify_yaml_config file_path f) as Htidy.
    unfold tidy in Htidy. by rewrite Ht in Htidy.
Qed.

(** *** [intelligence] *)

Lemma In_seq (e : event) (s1 s2 : stmt) :
  In e (fst (s1 ;; s2)) -> In e (fst s1) \/ In e (fst s2).
Proof.
  destruct s1 as [o1 [ | b | x]]; simpl; [ | by left ..].
  apply List.in_app_or.
Qed.

Lemma in_phase_not_In (k : nat) (s : stmt) (e : event) :
  phase e <> k -> in_phase k s -> ~ In e (fst s).
Proof.
  intros Hne Hs Hin. unfold in_phase, emits in Hs.
  rewrite List.Forall_forall in Hs. by apply Hne, Hs.
Qed.

Ltac other_phase k lem :=
  match goal with
  | Hin : In _ _ |- _ =>
      exfalso; revert Hin; apply (in_phase_not_In k); [discriminate | apply lem]
  end.

Lemma among_valid_levels (v : value) :
  among v valid_levels = true
  <-> v = VStr "light" \/ v = VStr "medium" \/ v = VStr "hard".
Proof.
  unfold among, valid_levels. simpl. rewrite !orb_true_iff.
  destruct v as [ | b | z | s | l | d]; simpl;
    try (split; [intros [? | [? | [? | ?]]]; discriminate
                | intros [? | [? | ?]]; discriminate]).
  rewrite !String.eqb_eq. split.
  - intros [-> | [-> | [-> | ?]]]; auto. discriminate.
  - intros [E | [E | E]]; inversion E; auto.
Qed.

(** X4.  In a document that passes the checks on the required fields
    and on [mode_override], an [intelligence] outside light, medium,
    hard that can be put into text makes validation return [False] with
    one violation that cites the value and the allowed list.  In every document whose
    [intelligence] is absent or one of the three, no such violation is
    printed. *)
Theorem intelligence_spec (file_path : string) (d : list (string * value)) :
  (forall v,
     snd (check_required (VDict d)) = Next ->
     snd (check_mode_override (VDict d)) = Next ->
     lookup "intelligence" d = Some v ->
     ~ (v = VStr "light" \/ v = VStr "medium" \/ v = VStr "hard") ->
     formattable v = true ->
     snd (verify_yaml_config file_path (Document (VDict d))) = Return false
     /\ violations (fst (verify_yaml_config file_path (Document (VDict d))))
        = [InvalidIntelligence v ["light"; "medium"; "hard"]])
  /\ (lookup "intelligence" d = None
      \/ (exists v, lookup "intelligence" d = Some v
                    /\ (v = VStr "light" \/ v = VStr "medium" \/ v = VStr "hard")) ->
      forall v allowed,
        ~ In (InvalidIntelligence v allowed)
             (fst (verify_yaml_config file_path (Document (VDict d))))).
Proof.
  split.
  - intros v Hreq Hmode Hv Hout Hfmt.
    assert (Hbad : among v valid_levels = false).
    { destruct (among v valid_levels) eqn:E; [ | done].
      apply among_valid_levels in E. done. }
    assert (Hsum : summary (verify_yaml_config file_path (Document (VDict d)))
                   = ([InvalidIntelligence v valid_levels], Return false)).
    { rewrite summary_verify_document. unfold verify_loaded.
      rewrite summary_seq_quiet_l
        by (apply tidy_Next_quiet; [apply tidy_check_required | done]).
      rewrite summary_seq_quiet_l
        by (apply tidy_Next_quiet; [apply tidy_check_mode_override | done]).
      unfold check_intelligence.
      rewrite (contains_present _ _ _ Hv), (getitem_present _ _ _ Hv). cbn [eval].
      rewrite Hbad. cbn [negb]. rewrite (formatting_one _ _ Hfmt). reflexivity. }
    split; [exact (f_equal snd Hsum) | exact (f_equal fst Hsum)].
  - intros Hok v allowed Hin.
    rewrite verify_document in Hin. simpl in Hin.
    destruct Hin as [? | Hin]; [done | ]. unfold verify_loaded in Hin.
    apply In_seq in Hin as [Hin | Hin]; [other_phase 1%nat check_required_phase | ].
    apply In_seq in Hin as [Hin | Hin]; [other_phase 2%nat check_mode_override_phase | ].
    apply In_seq in Hin as [Hin | Hin].
    { unfold check_intelligence in Hin. destruct Hok as [Habs | (w & Hw & Hw')].
      - rewrite (contains_absent _ _ Habs) in Hin. destruct Hin.
      - rewrite (contains_present _ _ _ Hw), (getitem_present _ _ _ Hw) in Hin.
        destruct Hw' as [-> | [-> | ->]]; vm_compute in Hin;
          by destruct Hin as [? | []]. }
    apply In_seq in Hin as [Hin | Hin]; [other_phase 4%nat check_tools_phase | ].
    apply In_seq in Hin as [Hin | Hin]; [other_phase 5%nat check_parameters_phase | ].
    apply In_seq in Hin as [Hin | Hin]; [other_phase 6%nat report_other_fields_phase | ].
    simpl in Hin. by destruct Hin as [? | []].
Qed.

Definition genius_items : list (string * value) :=
  [("name", VStr "reviewer");
   ("description", VStr "Reviews code");
   ("prompt", VStr "You are a reviewer.");
   ("mode_override", VStr "review");
   ("intelligence", VStr "genius")].

Lemma intelligence_spec_witness :
  (snd (verify_yaml_config "agent.yaml" (Document (VDict genius_items))) = Return false
   /\ violations (fst (verify_yaml_config "agent.yaml" (Document (VDict genius_items))))
      = [InvalidIntelligence (VStr "genius") ["light"; "medium"; "hard"]])
  /\ (forall v allowed,
        ~ In (InvalidIntelligence v allowed)
             (fst (verify_yaml_config "agent.yaml" (Document (VDict reviewer_items))))).
Proof.
  split.
  - apply (proj1 (intelligence_spec "agent.yaml" genius_items) (VStr "genius")).
    + reflexivity.
    + reflexivity.
    + reflexivity.
    + intros [H | [H | H]]; discriminate H.
    + reflexivity.
  - apply (proj2 (intelligence_spec "agent.yaml" reviewer_items)).
    left. reflexivity.
Defined.

(** *** Documents that are not mappings *)

(** X5.  A document that is not a mapping is never valid.  When
    ["name" in config] is false (a sequence without the item ["name"], a
    string without that part) it is reported as a document without
    name; in every other case the first check raises [TypeError]: so
    does the empty file, which loads as [None]. *)
Theorem non_mapping_never_valid (file_path : string) (config : value) :
  (forall d, config <> VDict d) ->
  verify_yaml_config file_path (Document config)
  = match contains config "name" with
    | Val false => ([Verifying file_path; MissingRequired "name"], Return false)
    | _ => ([Verifying file_path], Raised TypeError)
    end.
Proof.
  intros Hnot.
  assert (Hname : check_required_field config "name"
                  = match contains config "name" with
                    | Val false => ([MissingRequired "name"], Return false)
                    | _ => ([], Raised TypeError)
                    end).
  { unfold check_required_field.
    destruct config as [ | b | z | s | l | d]; try reflexivity.
    - cbn [contains]. by destruct (substring_of "name" s).
    - cbn [contains]. by destruct (existsb (fun x => eq_str x "name") l).
    - by destruct (Hnot d). }
  rewrite verify_document. unfold verify_loaded, check_required.
  cbn [for_each required]. rewrite Hname.
  by destruct (contains config "name") as [[ | ] | x].
Qed.

Lemma non_mapping_never_valid_witness :
  verify_yaml_config "empty.yaml" (Document VNone)
  = ([Verifying "empty.yaml"], Raised TypeError).
Proof. apply (non_mapping_never_valid "empty.yaml" VNone). intros d. discriminate. Defined.

(** *** The smallest valid document *)

(** The line printed for a required field that holds the string [s]:
    the string itself, or its first 50 characters and an ellipsis. *)
Definition shown_field (field s : string) : event :=
  if (50 <? String.length s)%nat
  then FieldOk field (VStr (String.substring 0 50 s)) true
  else FieldOk field (VStr s) false.

Lemma check_required_field_shown d field s :
  lookup field d = Some (VStr s) -> s <> "" ->
  check_required_field (VDict d) field = ([shown_field field s], Next).
Proof.
  intros Hs Hne. unfold check_required_field, shown_field.
  rewrite (contains_present _ _ _ Hs), (getitem_present _ _ _ Hs). simpl.
  destruct (String.eqb s "") eqn:E; [apply String.eqb_eq in E; done | ]. simpl.
  by destruct (50 <? String.length s)%nat.
Qed.

Lemma optional_absent_skip d :
  lookup "mode_override" d = None -> lookup "intelligence" d = None ->
  lookup "tools" d = None -> lookup "parameters" d = None ->
  check_mode_override (VDict d) = skip /\ check_intelligence (VDict d) = skip
  /\ check_tools (VDict d) = skip /\ check_parameters (VDict d) = skip.
Proof.
  intros Hm Hi Ht Hp.
  unfold check_mode_override, check_intelligence, check_tools, check_parameters.
  by rewrite (contains_absent _ _ Hm), (contains_absent _ _ Hi),
    (contains_absent _ _ Ht), (contains_absent _ _ Hp).
Qed.

(** X6.  A document with the three required fields as non-empty strings
    and none of the seven optional fields is valid, however long the
    strings: the checker prints the three fields, each cut to 50
    characters, then the closing line, and returns [True]. *)
Theorem minimal_document_valid (file_path : string) (d : list (string * value))
    (n ds pr : string) :
  lookup "name" d = Some (VStr n) -> n <> "" ->
  lookup "description" d = Some (VStr ds) -> ds <> "" ->
  lookup "prompt" d = Some (VStr pr) -> pr <> "" ->
  (forall k, In k ["mode_override"; "intelligence"; "tools"; "parameters";
                   "tags"; "file_patterns"; "metadata"] -> lookup k d = None) ->
  verify_yaml_config file_path (Document (VDict d))
  = ([Verifying file_path;
      shown_field "name" n; shown_field "description" ds; shown_field "prompt" pr;
      ConfigurationValid],
     Return true).
Proof.
  intros Hn Hn' Hd Hd' Hp Hp' Hopt.
  destruct (optional_absent_skip d) as (Hm & Hi & Ht & Hpa); try (apply Hopt; key_in).
  rewrite verify_document. unfold verify_loaded.
  rewrite Hm, Hi, Ht, Hpa.
  unfold check_required, report_other_fields, report_other_field.
  cbn [for_each required other_fields].
  rewrite (check_required_field_shown _ _ _ Hn Hn'),
    (check_required_field_shown _ _ _ Hd Hd'),
    (check_required_field_shown _ _ _ Hp Hp').
  rewrite !contains_absent by (apply Hopt; key_in).
  reflexivity.
Qed.

Lemma minimal_document_valid_witness :
  verify_yaml_config "agent.yaml" (Document (VDict minimal_items))
  = ([Verifying "agent.yaml";
      FieldOk "name" (VStr "reviewer") false;
      FieldOk "description" (VStr "Reviews code") false;
      FieldOk "prompt" (VStr "You are a reviewer.") false;
      ConfigurationValid],
     Return true).
Proof.
  apply (minimal_document_valid "agent.yaml" minimal_items
           "reviewer" "Reviews code" "You are a reviewer.");
    try reflexivity; try discriminate.
  intros k Hk. cbn in Hk.
  repeat (destruct Hk as [<- | Hk]; [reflexivity | ]). destruct Hk.
Defined.

(** *** Where the first failing item stops a loop *)

Lemma summary_seq_stop (s1 s2 : stmt) : snd s1 <> Next -> summary (s1 ;; s2) = summary s1.
Proof. destruct s1 as [out [ | b | x]]; done. Qed.

Lemma summary_for_each_stop {A : Type} (body : A -> stmt) (before after : list A) (x : A) :
  (forall y, tidy (body y)) ->
  Forall (fun y => snd (body y) = Next) before ->
  snd (body x) <> Next ->
  summary (for_each body (before ++ x :: after)) = summary (body x).
Proof.
  intros Htidy Hbefore Hx. rewrite for_each_app.
  rewrite summary_seq_quiet_l.
  - simpl for_each. by apply summary_seq_stop.
  - apply quiet_for_each. eapply List.Forall_impl; [ | exact Hbefore].
    intros y Hy. by apply tidy_Next_quiet.
Qed.

Lemma summary_at_tools d :
  snd (check_required (VDict d)) = Next ->
  snd (check_mode_override (VDict d)) = Next ->
  snd (check_intelligence (VDict d)) = Next ->
  summary (verify_loaded (VDict d))
  = summary (check_tools (VDict d) ;; check_parameters (VDict d) ;;
             report_other_fields (VDict d) ;; print ConfigurationValid ;; ret true).
Proof.
  intros Hreq Hmode Hint. unfold verify_loaded.
  rewrite summary_seq_quiet_l
    by (apply tidy_Next_quiet; [apply tidy_check_required | done]).
  rewrite summary_seq_quiet_l
    by (apply tidy_Next_quiet; [apply tidy_check_mode_override | done]).
  by rewrite summary_seq_quiet_l
    by (apply tidy_Next_quiet; [apply tidy_check_intelligence | done]).
Qed.

Lemma check_tool_invalid_permission tool name permission :
  lookup "name" tool = Some name ->
  lookup "permission" tool = Some permission ->
  among permission valid_permissions = false ->
  formattable name = true -> formattable permission = true ->
  check_tool (VDict tool) = ([InvalidPermission name permission], Return false).
Proof.
  intros Hname Hperm Hbad Hfn Hfp. unfold check_tool.
  rewrite (contains_present _ _ _ Hname), (contains_present _ _ _ Hperm),
    (getitem_present _ _ _ Hperm), (getitem_present _ _ _ Hname). cbn [eval negb].
  rewrite Hbad. cbn [negb]. by rewrite (formatting_two _ _ _ Hfn Hfp).
Qed.

Lemma among_valid_permissions (v : value) :
  among v valid_permissions = true
  <-> v = VStr "allow" \/ v = VStr "deny" \/ v = VStr "restricted".
Proof.
  unfold among, valid_permissions. simpl. rewrite !orb_true_iff.
  destruct v as [ | b | z | s | l | d]; simpl;
    try (split; [intros [? | [? | [? | ?]]]; discriminate
                | intros [? | [? | ?]]; discriminate]).
  rewrite !String.eqb_eq. split.
  - intros [-> | [-> | [-> | ?]]]; auto. discriminate.
  - intros [E | [E | E]]; inversion E; auto.
Qed.

(** X7.  In a document that passes the checks before the tools, the
    first tool that is not accepted ends validation.  When it has a
    [name] and a [permission] outside allow, deny, restricted, both of
    which can be put into text, the checker returns [False] with one
    violation that cites the name and the permission; the tools after
    it are not looked at. *)
Theorem invalid_permission_reported (file_path : string) (d : list (string * value))
    (before after : list value) (tool : list (string * value))
    (name permission : value) :
  snd (check_required (VDict d)) = Next ->
  snd (check_mode_override (VDict d)) = Next ->
  snd (check_intelligence (VDict d)) = Next ->
  lookup "tools" d = Some (VList (before ++ VDict tool :: after)) ->
  Forall (fun t => snd (check_tool t) = Next) before ->
  lookup "name" tool = Some name ->
  lookup "permission" tool = Some permission ->
  ~ (permission = VStr "allow" \/ permission = VStr "deny"
     \/ permission = VStr "restricted") ->
  formattable name = true -> formattable permission = true ->
  snd (verify_yaml_config file_path (Document (VDict d))) = Return false
  /\ violations (fst (verify_yaml_config file_path (Document (VDict d))))
     = [InvalidPermission name permission].
Proof.
  intros Hreq Hmode Hint Htools Hbefore Hname Hperm Hout Hfn Hfp.
  assert (Hbad : among permission valid_permissions = false).
  { destruct (among permission valid_permissions) eqn:E; [ | done].
    apply among_valid_permissions in E. done. }
  pose proof (check_tool_invalid_permission _ _ _ Hname Hperm Hbad Hfn Hfp) as Htool.
  assert (Hsum : summary (verify_yaml_config file_path (Document (VDict d)))
                 = ([InvalidPermission name permission], Return false)).
  { rewrite summary_verify_document, summary_at_tools by done.
    rewrite (check_tools_list d _ Htools).
    assert (Hloop : summary (for_each check_tool (before ++ VDict tool :: after))
                    = ([InvalidPermission name permission], Return false)).
    { rewrite summary_for_each_stop; [by rewrite Htool | apply tidy_check_tool | done | ].
      by rewrite Htool. }
    rewrite summary_seq_stop.
    - rewrite summary_seq_quiet_l by reflexivity. exact Hloop.
    - rewrite flow_seq. cbn [print snd]. pose proof (f_equal snd Hloop) as Hf.
      unfold summary in Hf. cbn [snd] in Hf. by rewrite Hf. }
  split; [exact (f_equal snd Hsum) | exact (f_equal fst Hsum)].
Qed.

Definition maybe_shell_items : list (string * value) :=
  [("name", VStr "reviewer");
   ("description", VStr "Reviews code");
   ("prompt", VStr "You are a reviewer.");
   ("tools", VList [VDict [("name", VStr "search"); ("permission", VStr "allow")];
                    VDict [("name", VStr "shell"); ("permission", VStr "maybe")];
                    VDict [("permission", VStr "deny")]])].

Lemma invalid_permission_reported_witness :
  snd (verify_yaml_config "agent.yaml" (Document (VDict maybe_shell_items))) = Return false
  /\ violations (fst (verify_yaml_config "agent.yaml" (Document (VDict maybe_shell_items))))
     = [InvalidPermission (VStr "shell") (VStr "maybe")].
Proof.
  apply (invalid_permission_reported "agent.yaml" maybe_shell_items
           [VDict [("name", VStr "search"); ("permission", VStr "allow")]]
           [VDict [("permission", VStr "deny")]]
           [("name", VStr "shell"); ("permission", VStr "maybe")]
           (VStr "shell") (VStr "maybe"));
    try reflexivity.
  - repeat constructor.
  - intros [H | [H | H]]; discriminate H.
Defined.

(** *** Parameters *)

Lemma summary_at_parameters d :
  snd (check_required (VDict d)) = Next ->
  snd (check_mode_override (VDict d)) = Next ->
  snd (check_intelligence (VDict d)) = Next ->
  snd (check_tools (VDict d)) = Next ->
  summary (verify_loaded (VDict d))
  = summary (check_parameters (VDict d) ;;
             report_other_fields (VDict d) ;; print ConfigurationValid ;; ret true).
Proof.
  intros Hreq Hmode Hint Htools. rewrite summary_at_tools by done.
  by rewrite summary_seq_quiet_l
    by (apply tidy_Next_quiet; [apply tidy_check_tools | done]).
Qed.

Lemma check_parameters_list d parameters :
  lookup "parameters" d = Some (VList parameters) ->
  check_parameters (VDict d)
  = (print (ParametersDefined (List.length parameters)) ;;
     for_each check_parameter parameters).
Proof.
  intros H. unfold check_parameters.
  by rewrite (contains_present _ _ _ H), (getitem_present _ _ _ H).
Qed.

(** The first of [name], [description] that a parameter lacks. *)
Definition first_missing (param : list (string * value)) : option string :=
  match lookup "name" param, lookup "description" param with
  | None, _ => Some "name"
  | Some _, None => Some "description"
  | Some _, Some _ => None
  end.

Lemma check_parameter_missing param field :
  first_missing param = Some field ->
  check_parameter (VDict param) = ([ParameterMissing field], Return false).
Proof.
  unfold first_missing, check_parameter. cbn [for_each required_param_fields].
  destruct (lookup "name" param) as [n|] eqn:Hn.
  - destruct (lookup "description" param) as [ds|] eqn:Hd; [done | ].
    intros [= <-].
    by rewrite (contains_present _ _ _ Hn), (contains_absent _ _ Hd).
  - intros [= <-]. by rewrite (contains_absent _ _ Hn).
Qed.

(** X8.  In a document that passes the checks before the parameters,
    the first parameter that lacks [name] or [description] ends
    validation: the checker returns [False] with one violation naming
    the field, [name] when both are missing; the parameters after it are
    not looked at. *)
Theorem missing_parameter_field (file_path : string) (d : list (string * value))
    (before after : list value) (param : list (string * value)) (field : string) :
  snd (check_required (VDict d)) = Next ->
  snd (check_mode_override (VDict d)) = Next ->
  snd (check_intelligence (VDict d)) = Next ->
  snd (check_tools (VDict d)) = Next ->
  lookup "parameters" d = Some (VList (before ++ VDict param :: after)) ->
  Forall (fun p => snd (check_parameter p) = Next) before ->
  first_missing param = Some field ->
  snd (verify_yaml_config file_path (Document (VDict d))) = Return false
  /\ violations (fst (verify_yaml_config file_path (Document (VDict d))))
     = [ParameterMissing field].
Proof.
  intros Hreq Hmode Hint Htools Hparams Hbefore Hmiss.
  pose proof (check_parameter_missing _ _ Hmiss) as Hparam.
  assert (Hsum : summary (verify_yaml_config file_path (Document (VDict d)))
                 = ([ParameterMissing field], Return false)).
  { rewrite summary_verify_document, summary_at_parameters by done.
    rewrite (check_parameters_list d _ Hparams).
    assert (Hloop : summary (for_each check_parameter (before ++ VDict param :: after))
                    = ([ParameterMissing field], Return false)).
    { rewrite summary_for_each_stop;
        [by rewrite Hparam | apply tidy_check_parameter | done | ].
      by rewrite Hparam. }
    rewrite summary_seq_stop.
    - rewrite summary_seq_quiet_l by reflexivity. exact Hloop.
    - rewrite flow_seq. cbn [print snd]. pose proof (f_equal snd Hloop) as Hf.
      unfold summary in Hf. cbn [snd] in Hf. by rewrite Hf. }
  split; [exact (f_equal snd Hsum) | exact (f_equal fst Hsum)].
Qed.

Definition undescribed_parameter_items : list (string * value) :=
  [("name", VStr "reviewer");
   ("description", VStr "Reviews code");
   ("prompt", VStr "You are a reviewer.");
   ("parameters",
    VList [VDict [("name", VStr "path"); ("description", VStr "File to review")];
           VDict [("name", VStr "depth")]])].

Lemma missing_parameter_field_witness :
  snd (verify_yaml_config "agent.yaml" (Document (VDict undescribed_parameter_items)))
  = Return false
  /\ violations
       (fst (verify_yaml_config "agent.yaml" (Document (VDict undescribed_parameter_items))))
     = [ParameterMissing "description"].
Proof.
  apply (missing_parameter_field "agent.yaml" undescribed_parameter_items
           [VDict [("name", VStr "path"); ("description", VStr "File to review")]] []
           [("name", VStr "depth")] "description");
    try reflexivity.
  repeat constructor.
Defined.

(** *** Documents on which the checker cannot raise *)

(** Values that have a length, and values that can be cut. *)
Definition sized (v : value) : bool :=
  match v with
  | VStr _ | VList _ | VDict _ => true
  | _ => false
  end.

Definition sliceable (v : value) : bool :=
  match v with
  | VStr _ | VList _ => true
  | _ => false
  end.

(** A field that is absent or can be put into text. *)
Definition formattable_field (d : list (string * value)) (field : string) : bool :=
  match lookup field d with
  | Some v => formattable v
  | None => true
  end.

(** A required field that can be printed: absent, or a value that can
    be put into text and is a string or a sequence, or has a text of at
    most 50 characters. *)
Definition printable_field (d : list (string * value)) (field : string) : bool :=
  match lookup field d with
  | Some v => formattable v && (sliceable v || (String.length (str v) <=? 50)%nat)
  | None => true
  end.

(** A tool that is a mapping whose [name] and [permission], if any, can
    be put into text and whose [restrictions], if any, have a length. *)
Definition tool_typed (tool : value) : bool :=
  match tool with
  | VDict t =>
      formattable_field t "name" && formattable_field t "permission"
      && match lookup "restrictions" t with Some r => sized r | None => true end
  | _ => false
  end.

(** A parameter that is a mapping whose [name], if any, can be put into
    text and whose [description], if any, is a string or a sequence that
    can be put into text. *)
Definition param_typed (param : value) : bool :=
  match param with
  | VDict p =>
      formattable_field p "name"
      && match lookup "description" p with
         | Some v => sliceable v && formattable v
         | None => true
         end
  | _ => false
  end.

Definition list_of (typed : value -> bool) (v : option value) : bool :=
  match v with
  | None => true
  | Some (VList l) => forallb typed l
  | Some _ => false
  end.

Definition well_typed (d : list (string * value)) : bool :=
  forallb (printable_field d) required
  && formattable_field d "mode_override"
  && formattable_field d "intelligence"
  && list_of tool_typed (lookup "tools" d)
  && list_of param_typed (lookup "parameters" d).

(** A block that no exception leaves. *)
Definition safe (s : stmt) : Prop := forall x, snd s <> Raised x.

Lemma safe_seq s1 s2 : safe s1 -> safe s2 -> safe (s1 ;; s2).
Proof.
  unfold safe. intros H1 H2 x. rewrite flow_seq.
  destruct (snd s1) eqn:E; [apply H2 | done | ]. intros [= ->]. by apply (H1 x).
Qed.

Lemma safe_for_each {A : Type} (body : A -> stmt) (l : list A) :
  Forall (fun x => safe (body x)) l -> safe (for_each body l).
Proof.
  induction 1 as [|x l Hx Hl IH]; [by intros x | ].
  simpl. by apply safe_seq.
Qed.

Lemma safe_quiet s : quiet s -> safe s.
Proof. unfold quiet, summary, safe. intros [= _ ->] x. done. Qed.

Lemma safe_print e : safe (print e).
Proof. by intros x. Qed.

Lemma safe_fail e : safe (print e ;; ret false).
Proof. by intros x. Qed.

Lemma formattable_firstn n l :
  forallb formattable l = true -> forallb formattable (firstn n l) = true.
Proof.
  revert n. induction l as [|x l IH]; intros [|n]; simpl; try done.
  rewrite !andb_true_iff. intros [Hx Hl]. split; [done | by apply IH].
Qed.

Lemma formattable_slice n v shown :
  formattable v = true -> slice_to n v = Val shown -> formattable shown = true.
Proof.
  destruct v; try done; simpl; intros Hv [= <-]; [done | ].
  by apply formattable_firstn.
Qed.

Lemma safe_check_required_field d field :
  printable_field d field = true -> safe (check_required_field (VDict d) field).
Proof.
  unfold printable_field, check_required_field.
  destruct (lookup field d) as [v|] eqn:E.
  - rewrite (contains_present _ _ _ E), (getitem_present _ _ _ E). cbn [eval negb].
    rewrite andb_true_iff. intros [Hfmt Hv].
    destruct (truthy v); cbn [negb]; [ | apply safe_fail].
    unfold to_text. rewrite Hfmt. cbn [eval].
    destruct (50 <? String.length (str v))%nat eqn:Hlen.
    + apply Nat.ltb_lt in Hlen.
      destruct (String.length (str v) <=? 50)%nat eqn:Hle;
        [apply Nat.leb_le in Hle; lia | ].
      rewrite orb_false_r in Hv.
      destruct (slice_to 50 v) as [shown | x] eqn:Hslice; [ | by destruct v].
      cbn [eval]. rewrite (formatting_one _ _ (formattable_slice _ _ _ Hfmt Hslice)).
      apply safe_print.
    + rewrite (formatting_one _ _ Hfmt). apply safe_print.
  - rewrite (contains_absent _ _ E). intros _. apply safe_fail.
Qed.

Lemma safe_check_mode_override d :
  formattable_field d "mode_override" = true -> safe (check_mode_override (VDict d)).
Proof.
  unfold formattable_field, check_mode_override.
  destruct (lookup "mode_override" d) as [v|] eqn:E.
  - rewrite (contains_present _ _ _ E), (getitem_present _ _ _ E). cbn [eval].
    intros Hfmt. rewrite !(formatting_one _ _ Hfmt).
    destruct (among v valid_modes); cbn [negb]; [apply safe_print | apply safe_fail].
  - rewrite (contains_absent _ _ E). by intros _ x.
Qed.

Lemma safe_check_intelligence d :
  formattable_field d "intelligence" = true -> safe (check_intelligence (VDict d)).
Proof.
  unfold formattable_field, check_intelligence.
  destruct (lookup "intelligence" d) as [v|] eqn:E.
  - rewrite (contains_present _ _ _ E), (getitem_present _ _ _ E). cbn [eval].
    intros Hfmt. rewrite !(formatting_one _ _ Hfmt).
    destruct (among v valid_levels); cbn [negb]; [apply safe_print | apply safe_fail].
  - rewrite (contains_absent _ _ E). by intros _ x.
Qed.

Lemma safe_check_tool tool : tool_typed tool = true -> safe (check_tool tool).
Proof.
  destruct tool as [ | | | | | t]; try done.
  unfold tool_typed, formattable_field, check_tool.
  destruct (lookup "name" t) as [n|] eqn:Hn;
    [ | rewrite (contains_absent _ _ Hn); by intros _ x].
  rewrite (contains_present _ _ _ Hn), (getitem_present _ _ _ Hn).
  destruct (lookup "permission" t) as [p|] eqn:Hp;
    [ | rewrite (contains_absent _ _ Hp); by intros _ x].
  rewrite (contains_present _ _ _ Hp), (getitem_present _ _ _ Hp).
  rewrite !andb_true_iff. intros [[Hfn Hfp] Hsized]. cbn [eval negb].
  unfold formatting. cbn [forallb]. rewrite Hfn, Hfp. cbn [andb].
  destruct (among p valid_permissions); cbn [negb]; [ | apply safe_fail].
  destruct (lookup "restrictions" t) as [r|] eqn:Hr.
  - rewrite (contains_present _ _ _ Hr), (getitem_present _ _ _ Hr).
    destruct (eq_str p "restricted"); [ | by intros x].
    by destruct r; try done; intros x.
  - rewrite (contains_absent _ _ Hr).
    by destruct (eq_str p "restricted"); intros x.
Qed.

Lemma safe_check_parameter param : param_typed param = true -> safe (check_parameter param).
Proof.
  destruct param as [ | | | | | p]; try done.
  unfold param_typed, formattable_field, check_parameter.
  cbn [for_each required_param_fields].
  destruct (lookup "name" p) as [n|] eqn:Hn;
    [ | rewrite (contains_absent _ _ Hn); by intros _ x].
  rewrite (contains_present _ _ _ Hn), (getitem_present _ _ _ Hn).
  destruct (lookup "description" p) as [v|] eqn:Hv;
    [ | rewrite (contains_absent _ _ Hv); by intros _ x].
  rewrite (contains_present _ _ _ Hv), (getitem_present _ _ _ Hv).
  rewrite !andb_true_iff. intros [Hfn [Hslice Hfv]].
  cbn [eval negb]. rewrite (formatting_one _ _ Hfn).
  destruct (slice_to 40 v) as [shown | x] eqn:Hcut; [ | by destruct v].
  cbn [eval]. rewrite (formatting_one _ _ (formattable_slice _ _ _ Hfv Hcut)).
  by intros x.
Qed.

Lemma forallb_Forall_safe {A : Type} (typed : A -> bool) (body : A -> stmt) (l : list A) :
  (forall x, typed x = true -> safe (body x)) ->
  forallb typed l = true -> Forall (fun x => safe (body x)) l.
Proof.
  intros H Hl. apply List.Forall_forall. intros x Hx.
  apply H. rewrite List.forallb_forall in Hl. by apply Hl.
Qed.

Lemma safe_check_tools d :
  list_of tool_typed (lookup "tools" d) = true -> safe (check_tools (VDict d)).
Proof.
  unfold list_of. destruct (lookup "tools" d) as [v|] eqn:E.
  - destruct v as [ | | | | l | ]; try done. intros Hl.
    rewrite (check_tools_list d l E). apply safe_seq; [by intros x | ].
    apply safe_for_each.
    apply (forallb_Forall_safe tool_typed); [apply safe_check_tool | exact Hl].
  - intros _. unfold check_tools. rewrite (contains_absent _ _ E). by intros x.
Qed.

Lemma safe_check_parameters d :
  list_of param_typed (lookup "parameters" d) = true -> safe (check_parameters (VDict d)).
Proof.
  unfold list_of. destruct (lookup "parameters" d) as [v|] eqn:E.
  - destruct v as [ | | | | l | ]; try done. intros Hl.
    rewrite (check_parameters_list d l E). apply safe_seq; [by intros x | ].
    apply safe_for_each.
    apply (forallb_Forall_safe param_typed); [apply safe_check_parameter | exact Hl].
  - intros _. unfold check_parameters. rewrite (contains_absent _ _ E). by intros x.
Qed.

(** X9.  Take a mapping in which every value the checker prints can be
    put into text (the required fields, [mode_override], [intelligence],
    the [name] and [permission] of the tools, the [name] and
    [description] of the parameters), whose required fields are strings,
    sequences or values with a text of at most 50 characters, whose
    tools are mappings with sized [restrictions] and whose parameters
    are mappings with a [description] that is a string or a sequence.
    On it no exception leaves the checker: it returns [True] or
    [False]. *)
Theorem well_typed_returns (file_path : string) (d : list (string * value)) :
  well_typed d = true ->
  exists b, snd (verify_yaml_config file_path (Document (VDict d))) = Return b.
Proof.
  unfold well_typed. rewrite !andb_true_iff.
  intros [[[[Hreq Hmode] Hint] Htools] Hparams].
  assert (Hsafe : safe (verify_loaded (VDict d))).
  { unfold verify_loaded.
    apply safe_seq.
    { unfold check_required. apply safe_for_each.
      apply (forallb_Forall_safe (printable_field d));
        [apply safe_check_required_field | exact Hreq]. }
    apply safe_seq; [by apply safe_check_mode_override | ].
    apply safe_seq; [by apply safe_check_intelligence | ].
    apply safe_seq; [by apply safe_check_tools | ].
    apply safe_seq; [by apply safe_check_parameters | ].
    apply safe_seq; [apply safe_quiet, report_other_fields_quiet | ].
    by intros x. }
  rewrite verify_document. cbn [snd].
  pose proof (verify_loaded_ends (VDict d)) as Hends.
  destruct (snd (verify_loaded (VDict d))) as [ | b | x] eqn:E; [done | eauto | ].
  by destruct (Hsafe x).
Qed.

Lemma well_typed_returns_witness :
  exists b,
    snd (verify_yaml_config "agent.yaml" (Document (VDict undescribed_parameter_items)))
    = Return b.
Proof. apply well_typed_returns. reflexivity. Defined.

(** *** Values that make the checker raise *)

Lemma slice_to_unsliceable n v : sliceable v = false -> slice_to n v = Exc TypeError.
Proof. by destruct v. Qed.

Lemma check_required_field_unprintable d field v :
  lookup field d = Some v -> truthy v = true -> sliceable v = false ->
  formattable v = true ->
  (50 < String.length (str v))%nat ->
  check_required_field (VDict d) field = ([], Raised TypeError).
Proof.
  intros Hv Htruthy Hslice Hfmt Hlen. unfold check_required_field.
  rewrite (contains_present _ _ _ Hv), (getitem_present _ _ _ Hv). cbn [eval negb].
  rewrite Htruthy. cbn [negb]. unfold to_text. rewrite Hfmt. cbn [eval].
  apply Nat.ltb_lt in Hlen. rewrite Hlen.
  by rewrite (slice_to_unsliceable _ _ Hslice).
Qed.

(** X10.  The required fields are not checked for their type, only
    printed.  When the earlier ones pass and the field holds a truthy
    value that is neither a string nor a sequence and whose text,
    which [str] can still produce, is longer than 50 characters (a
    number of 51 to 4300 digits, a mapping), cutting it for the line
    raises [TypeError]: the checker reports no violation and returns
    nothing. *)
Theorem unprintable_field_raises (file_path : string) (d : list (string * value))
    (earlier later : list string) (field : string) (v : value) :
  required = earlier ++ field :: later ->
  Forall (fun g => snd (check_required_field (VDict d) g) = Next) earlier ->
  lookup field d = Some v ->
  truthy v = true -> sliceable v = false -> formattable v = true ->
  (50 < String.length (str v))%nat ->
  snd (verify_yaml_config file_path (Document (VDict d))) = Raised TypeError
  /\ violations (fst (verify_yaml_config file_path (Document (VDict d)))) = [].
Proof.
  intros Hsplit Hearlier Hv Htruthy Hslice Hfmt Hlen.
  pose proof (check_required_field_unprintable _ _ _ Hv Htruthy Hslice Hfmt Hlen)
    as Hfield.
  assert (Hsum : summary (verify_yaml_config file_path (Document (VDict d)))
                 = ([], Raised TypeError)).
  { rewrite summary_verify_document. unfold verify_loaded, check_required.
    rewrite Hsplit. rewrite summary_seq_stop.
    - rewrite summary_for_each_stop;
        [by rewrite Hfield | apply tidy_check_required_field | done | by rewrite Hfield].
    - assert (Hloop : summary (for_each (check_required_field (VDict d))
                                 (earlier ++ field :: later))
                      = ([], Raised TypeError)).
      { rewrite summary_for_each_stop;
          [by rewrite Hfield | apply tidy_check_required_field | done | by rewrite Hfield]. }
      pose proof (f_equal snd Hloop) as Hf. unfold summary in Hf. cbn [snd] in Hf.
      by rewrite Hf. }
  split; [exact (f_equal snd Hsum) | exact (f_equal fst Hsum)].
Qed.

Definition numbered_items : list (string * value) :=
  [("name", VInt 123456789012345678901234567890123456789012345678901);
   ("description", VStr "Reviews code");
   ("prompt", VStr "You are a reviewer.")].

Lemma unprintable_field_raises_witness :
  snd (verify_yaml_config "agent.yaml" (Document (VDict numbered_items))) = Raised TypeError
  /\ violations (fst (verify_yaml_config "agent.yaml" (Document (VDict numbered_items))))
     = [].
Proof.
  apply (unprintable_field_raises "agent.yaml" numbered_items
           [] ["description"; "prompt"] "name"
           (VInt 123456789012345678901234567890123456789012345678901));
    try reflexivity.
  - constructor.
  - vm_compute. lia.
Defined.

Lemma check_parameter_uncut param name description :
  lookup "name" param = Some name ->
  formattable name = true ->
  lookup "description" param = Some description ->
  sliceable description = false ->
  check_parameter (VDict param) = ([], Raised TypeError).
Proof.
  intros Hn Hfmt Hd Hslice. unfold check_parameter. cbn [for_each required_param_fields].
  rewrite (contains_present _ _ _ Hn), (contains_present _ _ _ Hd),
    (getitem_present _ _ _ Hn), (getitem_present _ _ _ Hd).
  cbn [eval]. rewrite (formatting_one _ _ Hfmt).
  destruct description; try discriminate Hslice; reflexivity.
Qed.

(** X11.  A parameter that has both fields is printed with its name
    and its description cut to 40 characters.  In a document that
    passes the checks before the parameters, the first parameter whose
    [name] can be put into text and whose [description] is neither a
    string nor a sequence (a number, a boolean, null, a mapping) makes
    that cut raise [TypeError]: no violation is reported. *)
Theorem uncut_description_raises (file_path : string) (d : list (string * value))
    (before after : list value) (param : list (string * value))
    (name description : value) :
  snd (check_required (VDict d)) = Next ->
  snd (check_mode_override (VDict d)) = Next ->
  snd (check_intelligence (VDict d)) = Next ->
  snd (check_tools (VDict d)) = Next ->
  lookup "parameters" d = Some (VList (before ++ VDict param :: after)) ->
  Forall (fun p => snd (check_parameter p) = Next) before ->
  lookup "name" param = Some name ->
  formattable name = true ->
  lookup "description" param = Some description ->
  sliceable description = false ->
  snd (verify_yaml_config file_path (Document (VDict d))) = Raised TypeError
  /\ violations (fst (verify_yaml_config file_path (Document (VDict d)))) = [].
Proof.
  intros Hreq Hmode Hint Htools Hparams Hbefore Hn Hfmt Hd Hslice.
  pose proof (check_parameter_uncut _ _ _ Hn Hfmt Hd Hslice) as Hparam.
  assert (Hsum : summary (verify_yaml_config file_path (Document (VDict d)))
                 = ([], Raised TypeError)).
  { rewrite summary_verify_document, summary_at_parameters by done.
    rewrite (check_parameters_list d _ Hparams).
    assert (Hloop : summary (for_each check_parameter (before ++ VDict param :: after))
                    = ([], Raised TypeError)).
    { rewrite summary_for_each_stop;
        [by rewrite Hparam | apply tidy_check_parameter | done | by rewrite Hparam]. }
    rewrite summary_seq_stop.
    - rewrite summary_seq_quiet_l by reflexivity. exact Hloop.
    - rewrite flow_seq. cbn [print snd]. pose proof (f_equal snd Hloop) as Hf.
      unfold summary in Hf. cbn [snd] in Hf. by rewrite Hf. }
  split; [exact (f_equal snd Hsum) | exact (f_equal fst Hsum)].
Qed.

Definition numeric_description_items : list (string * value) :=
  [("name", VStr "reviewer");
   ("description", VStr "Reviews code");
   ("prompt", VStr "You are a reviewer.");
   ("parameters", VList [VDict [("name", VStr "depth"); ("description", VInt 3)]])].

Lemma uncut_description_raises_witness :
  snd (verify_yaml_config "agent.yaml" (Document (VDict numeric_description_items)))
  = Raised TypeError
  /\ violations
       (fst (verify_yaml_config "agent.yaml" (Document (VDict numeric_description_items))))
     = [].
Proof.
  apply (uncut_description_raises "agent.yaml" numeric_description_items
           [] [] [("name", VStr "depth"); ("description", VInt 3)] (VStr "depth") (VInt 3));
    try reflexivity.
  constructor.
Defined.

(** *** What [main] finds *)

Lemma yaml_prefix_conflict (r : string) :
  String.prefix "lmay." r = true -> String.prefix "lmy." r = false.
Proof.
  intros H. apply String.prefix_correct in H.
  destruct r as [|c1 [|c2 [|c3 [|c4 [|c5 r]]]]]; try discriminate H.
  cbn [String.length String.substring] in H. inversion H; subst.
  reflexivity.
Qed.

Lemma yaml_not_yml (name : string) :
  has_suffix ".yaml" name = true -> has_suffix ".yml" name = false.
Proof. unfold has_suffix. apply yaml_prefix_conflict. Qed.

(** The entries whose name ends in [.yaml] or [.yml]. *)
Definition is_yaml (e : entry) : bool :=
  has_suffix ".yaml" (entry_name e) || has_suffix ".yml" (entry_name e).

Lemma yaml_files_Permutation (dir : list entry) :
  yaml_files dir ≡ₚ List.filter is_yaml dir.
Proof.
  unfold yaml_files, glob, is_yaml. induction dir as [|e dir IH]; [done | ].
  simpl. destruct (has_suffix ".yaml" (entry_name e)) eqn:Hyaml.
  - rewrite (yaml_not_yml _ Hyaml). simpl. by rewrite IH.
  - simpl. destruct (has_suffix ".yml" (entry_name e)).
    + rewrite <- Permutation_middle. by rewrite IH.
    + exact IH.
Qed.

(** X12.  [main] verifies each file once: the list it builds is a
    rearrangement of the entries of the directory whose name ends in
    [.yaml] or [.yml], none listed twice and none left out, since no
    name has both endings.  So the number it announces is the number of
    such entries. *)
Theorem each_file_once (dir : list entry) :
  yaml_files dir ≡ₚ List.filter is_yaml dir
  /\ (NoDup dir -> NoDup (yaml_files dir))
  /\ List.length (yaml_files dir) = List.length (List.filter is_yaml dir).
Proof.
  pose proof (yaml_files_Permutation dir) as Hperm.
  split; [exact Hperm | ]. split.
  - intros Hnodup. rewrite Hperm. apply NoDup_ListNoDup.
    apply List.NoDup_filter. by apply NoDup_ListNoDup.
  - by rewrite Hperm.
Qed.

(** X13.  With no [example-agents] directory, or with one that holds
    no entry in [.yaml] or [.yml], [main] says that it found no file and
    ends: nothing is verified and no summary is printed.  A missing
    directory is created first. *)
Theorem nothing_to_verify (example_dir : option (list entry)) :
  Forall (fun e => is_yaml e = false) (default [] example_dir) ->
  main example_dir
  = (match example_dir with None => [CreatingDirectory] | Some _ => [] end
       ++ [NoFilesFound],
     Val tt).
Proof.
  intros Hnone. unfold main.
  assert (Hfiles : yaml_files (default [] example_dir) = []).
  { apply Permutation_nil_r. rewrite yaml_files_Permutation.
    induction Hnone as [|e l He Hl IH]; [done | ]. simpl. by rewrite He. }
  by rewrite Hfiles.
Qed.

Lemma nothing_to_verify_witness :
  main None = ([CreatingDirectory; NoFilesFound], Val tt)
  /\ main (Some toml_only) = ([NoFilesFound], Val tt).
Proof.
  split.
  - apply (nothing_to_verify None). constructor.
  - apply (nothing_to_verify (Some toml_only)). repeat constructor.
Defined.

(** *** The order of the lines *)

Definition earlier_phase (a b : event) : Prop := (phase a <= phase b)%nat.

(** The lines of a block are in the order of the checks, none before
    check [k]. *)
Definition from_phase (k : nat) (s : stmt) : Prop :=
  StronglySorted earlier_phase (fst s) /\ Forall (fun e => (k <= phase e)%nat) (fst s).

Lemma from_phase_single (k : nat) (s : stmt) : in_phase k s -> from_phase k s.
Proof.
  unfold in_phase, emits, from_phase. induction 1 as [|e l He Hl [IH1 IH2]].
  - split; constructor.
  - cbn beta in He. split.
    + constructor; [exact IH1 | ].
      eapply List.Forall_impl; [ | exact Hl]. intros e' He'. cbn beta in He'.
      unfold earlier_phase. lia.
    + constructor; [lia | exact IH2].
Qed.

Lemma from_phase_seq (k k' : nat) (s1 s2 : stmt) :
  (k <= k')%nat -> in_phase k s1 -> from_phase k' s2 -> from_phase k (s1 ;; s2).
Proof.
  intros Hle H1 [Hsorted Hfrom].
  destruct (from_phase_single k s1 H1) as [Hs1 Hf1].
  destruct s1 as [o1 [ | b | x]]; [ | by split ..].
  unfold from_phase. simpl in *. split.
  - apply StronglySorted_app_2; [ | done | done].
    intros a b Ha Hb. unfold in_phase, emits in H1. simpl in H1.
    rewrite Forall_forall in H1, Hfrom.
    unfold earlier_phase. rewrite (H1 a Ha). specialize (Hfrom b Hb). simpl in Hfrom. lia.
  - apply Forall_app. split; [done | ].
    eapply List.Forall_impl; [ | exact Hfrom]. intros e He. simpl in He. lia.
Qed.

(** X14.  The lines of a run come in the order of the checks: the
    header, the required fields, [mode_override], [intelligence], the
    tools, the parameters, the other fields, the closing line.  No line
    of a check is printed once a later check has printed one. *)
Theorem lines_in_check_order (file_path : string) (f : file) :
  StronglySorted earlier_phase (fst (verify_yaml_config file_path f)).
Proof.
  destruct f as [ | | config]; [repeat constructor .. | ].
  unfold verify_yaml_config. cbn [safe_load eval]. unfold verify_loaded.
  apply (from_phase_seq 0 1); [lia | by repeat constructor | ].
  apply (from_phase_seq 1 2); [lia | apply check_required_phase | ].
  apply (from_phase_seq 2 3); [lia | apply check_mode_override_phase | ].
  apply (from_phase_seq 3 4); [lia | apply check_intelligence_phase | ].
  apply (from_phase_seq 4 5); [lia | apply check_tools_phase | ].
  apply (from_phase_seq 5 6); [lia | apply check_parameters_phase | ].
  apply (from_phase_seq 6 7); [lia | apply report_other_fields_phase | ].
  apply from_phase_single. by repeat constructor.
Qed.

End VerifyExtra.

(** ** More on the task sample

    The manager is taken with one task object per id, as [add_task] on
    tasks built one by one leaves it. *)

Module SampleExtra.
Import Sample SampleLists SampleProps.
Local Open Scope list_scope.

(** *** Tags *)

Lemma remove_first_occurrences tag l :
  occurrences tag (remove_first tag l) = Nat.pred (occurrences tag l).
Proof.
  unfold occurrences. induction l as [|x l IH]; [done | ]. simpl.
  destruct (String.eqb x tag) eqn:E.
  - apply String.eqb_eq in E. subst x. by rewrite String.eqb_refl.
  - rewrite String.eqb_sym in E. simpl. by rewrite E.
Qed.

Lemma remove_first_other tag other l :
  other <> tag -> occurrences other (remove_first tag l) = occurrences other l.
Proof.
  intros Hne. unfold occurrences. induction l as [|x l IH]; [done | ]. simpl.
  destruct (String.eqb x tag) eqn:E.
  - apply String.eqb_eq in E. subst x.
    destruct (String.eqb other tag) eqn:E'; [apply String.eqb_eq in E'; done | done].
  - simpl. destruct (String.eqb other x); simpl; by rewrite IH.
Qed.

Lemma remove_first_split tag l1 l2 :
  ~ In tag l1 -> remove_first tag (l1 ++ tag :: l2) = l1 ++ l2.
Proof.
  induction l1 as [|x l1 IH]; intros Hnotin; simpl.
  - by rewrite String.eqb_refl.
  - destruct (String.eqb x tag) eqn:E.
    + apply String.eqb_eq in E. subst x. destruct Hnotin. by left.
    + rewrite IH; [done | ]. intros Hin. apply Hnotin. by right.
Qed.

(** X15.  [remove_tag] takes out one occurrence of the tag, the first,
    and nothing else: the tags before and after it keep their places,
    a tag that occurs twice is still there afterwards, and a task
    without the tag is left as it is. *)
Theorem remove_tag_spec (t : Task) (tag : string) :
  occurrences tag (tags (remove_tag tag t)) = Nat.pred (occurrences tag (tags t))
  /\ (forall other, other <> tag ->
        occurrences other (tags (remove_tag tag t)) = occurrences other (tags t))
  /\ (forall l1 l2, tags t = l1 ++ tag :: l2 -> ~ In tag l1 ->
        tags (remove_tag tag t) = l1 ++ l2)
  /\ (has_tag tag t = false -> remove_tag tag t = t)
  /\ (has_tag tag (remove_tag tag t) = true <-> (2 <= occurrences tag (tags t))%nat).
Proof.
  assert (Hocc : occurrences tag (tags (remove_tag tag t))
                 = Nat.pred (occurrences tag (tags t))).
  { unfold remove_tag. destruct (has_tag tag t) eqn:Hin; simpl.
    - apply remove_first_occurrences.
    - apply has_tag_false_occurrences in Hin. by rewrite Hin. }
  split; [exact Hocc | ]. split.
  { intros other Hne. unfold remove_tag. destruct (has_tag tag t); simpl; [ | done].
    by apply remove_first_other. }
  split.
  { intros l1 l2 Htags Hnotin. unfold remove_tag.
    assert (Hin : has_tag tag t = true).
    { apply has_tag_In. rewrite Htags. apply List.in_app_iff. right. by left. }
    rewrite Hin. simpl. rewrite Htags. by apply remove_first_split. }
  split.
  { intros Hin. unfold remove_tag. by rewrite Hin. }
  rewrite has_tag_occurrences, Hocc. lia.
Qed.

(** X16.  Adding a tag that the task does not have and removing it
    again gives the task back. *)
Theorem add_then_remove_tag (t : Task) (tag : string) :
  has_tag tag t = false -> remove_tag tag (add_tag tag t) = t.
Proof.
  intros Hnew. unfold add_tag. rewrite Hnew. simpl.
  unfold remove_tag, has_tag. simpl.
  assert (Hnotin : ~ In tag (tags t)).
  { intros Hin. apply has_tag_In in Hin. congruence. }
  assert (Hex : existsb (String.eqb tag) (tags t ++ [tag]) = true).
  { rewrite existsb_app. simpl. rewrite String.eqb_refl. by rewrite orb_true_r. }
  rewrite Hex. unfold with_tags. simpl.
  rewrite (remove_first_split tag (tags t) [] Hnotin), app_nil_r.
  by destruct t.
Qed.

Definition learn_python : Task :=
  {| id := "1"; title := "Learn Python"; completed := false; created_at := Naive 0;
     tags := ["learning"; "programming"]; metadata := ∅ |}.

Lemma add_then_remove_tag_witness :
  remove_tag "urgent" (add_tag "urgent" learn_python) = learn_python.
Proof. apply add_then_remove_tag. reflexivity. Defined.

(** *** Storing and finding tasks *)

(** X17.  A task that was added is found under its id, and the tasks
    under other ids are not touched.  Adding under an id that is in use
    replaces the task stored there, so the number of tasks grows by one
    only for a new id. *)
Theorem add_task_spec (m : TaskManager) (task : Task) :
  get_task (id task) (add_task task m) = Some task
  /\ (forall task_id, task_id <> id task ->
        get_task task_id (add_task task m) = get_task task_id m)
  /\ size (tasks (add_task task m))
     = (if bool_decide (is_Some (get_task (id task) m))
        then size (tasks m) else S (size (tasks m)))
  /\ (forall later, id later = id task ->
        add_task later (add_task task m) = add_task later m).
Proof.
  unfold get_task, add_task. simpl. split; [apply lookup_insert_eq | ]. split.
  { intros task_id Hne. by apply lookup_insert_ne. }
  split.
  { case_bool_decide as Hin.
    - by apply map_size_insert_Some.
    - apply map_size_insert_None. destruct (tasks m !! id task) eqn:E; [ | done].
      destruct Hin. eauto. }
  intros later Hid. f_equal. rewrite Hid. apply insert_insert_eq.
Qed.

(** X18.  Removing a task right after it was added under a new id
    gives the manager back, and [remove_task] reports that it found
    the task. *)
Theorem add_then_remove_task (m : TaskManager) (task : Task) :
  get_task (id task) m = None ->
  remove_task (id task) (add_task task m) = (m, true).
Proof.
  unfold get_task, remove_task, add_task. intros Hnew. simpl.
  rewrite bool_decide_eq_true_2 by (rewrite lookup_insert_eq; eauto).
  f_equal. destruct m as [stored]. simpl in *. f_equal.
  rewrite delete_insert_eq. by apply delete_id.
Qed.

Lemma add_then_remove_task_witness :
  remove_task "1" (add_task learn_python init) = (init, true).
Proof. apply (add_then_remove_task init learn_python). reflexivity. Defined.

(** *** Completing a task *)

Import SampleObjects.

(** The ids under which the store holds the object [r]. *)
Definition holders (r : positive) (held : gmap string positive) : gmap string positive :=
  filter (fun kv : string * positive => snd kv = r) held.

(** X19.  [mark_task_completed] returns [True] exactly when the id is
    stored, and then sets [completed] on the object under the id and
    changes nothing else of it: every id that holds the same object
    shows it completed, every id that holds another object shows what it
    showed before.  The ids and what they refer to stay, a second call
    changes nothing more, and for an unknown id the store is
    unchanged. *)
Theorem mark_task_completed_spec (s : store) (task_id : string) :
  (snd (mark_task_completed task_id s) = true <-> is_Some (stored s !! task_id))
  /\ stored (fst (mark_task_completed task_id s)) = stored s
  /\ (forall r other,
        stored s !! task_id = Some r ->
        get_task other (fst (mark_task_completed task_id s))
        = if bool_decide (stored s !! other = Some r)
          then mark_completed <$> get_task other s
          else get_task other s)
  /\ (forall task,
        get_task task_id s = Some task ->
        get_task task_id (fst (mark_task_completed task_id s))
        = Some {| id := id task; title := title task; completed := true;
                  created_at := created_at task; tags := tags task;
                  metadata := metadata task |})
  /\ mark_task_completed task_id (fst (mark_task_completed task_id s))
     = (fst (mark_task_completed task_id s), snd (mark_task_completed task_id s))
  /\ (stored s !! task_id = None -> mark_task_completed task_id s = (s, false)).
Proof.
  assert (Hother : forall r other,
            stored s !! task_id = Some r ->
            get_task other (fst (mark_task_completed task_id s))
            = if bool_decide (stored s !! other = Some r)
              then mark_completed <$> get_task other s
              else get_task other s).
  { intros r other Hr. unfold mark_task_completed, get_task. rewrite Hr. simpl.
    destruct (stored s !! other) as [r'|] eqn:Ho; simpl.
    - rewrite lookup_alter. case_bool_decide as Hsame.
      + injection Hsame as ->. by rewrite decide_True.
      + rewrite decide_False; [done | congruence].
    - reflexivity. }
  split.
  { unfold mark_task_completed. destruct (stored s !! task_id); simpl.
    - split; eauto.
    - split; [done | by intros [? ?]]. }
  split.
  { unfold mark_task_completed. by destruct (stored s !! task_id). }
  split; [exact Hother | ].
  split.
  { intros task Htask.
    destruct (stored s !! task_id) as [r|] eqn:Hr;
      [ | unfold get_task in Htask; by rewrite Hr in Htask].
    rewrite (Hother r task_id eq_refl), Hr, bool_decide_eq_true_2 by done.
    by rewrite Htask. }
  split.
  { unfold mark_task_completed.
    destruct (stored s !! task_id) as [r|] eqn:Hr; simpl; [ | by rewrite Hr].
    rewrite Hr. f_equal. f_equal. rewrite alter_alter_eq.
    apply map_eq. intros r'. rewrite !lookup_alter. case_decide; [ | done].
    by destruct (objects s !! r). }
  intros Hr. unfold mark_task_completed. by rewrite Hr.
Qed.

Lemma omap_fresh {A B : Type} (f : A -> option B) (m : gmap string A) (i : string) :
  m !! i = None -> omap f m !! i = None.
Proof. intros H. by rewrite lookup_omap, H. Qed.

Lemma completed_after_alter (objs : gmap positive Task) (r : positive) (task : Task)
    (held : gmap string positive) :
  objs !! r = Some task ->
  size (omap (fun r' => alter mark_completed r objs !! r') held)
  = size (omap (fun r' => objs !! r') held)
  /\ size (filter (fun kv : string * Task => completed (snd kv) = true)
             (omap (fun r' => alter mark_completed r objs !! r') held))
     = (size (filter (fun kv : string * Task => completed (snd kv) = true)
                (omap (fun r' => objs !! r') held))
        + (if completed task then 0 else size (holders r held)))%nat.
Proof.
  intros Hr. unfold holders.
  induction held as [|i x held Hi [IH1 IH2]] using map_ind.
  - rewrite !omap_empty, !map_filter_empty, !map_size_empty. by destruct (completed task).
  - pose proof (omap_fresh (fun r' => alter mark_completed r objs !! r') held i Hi) as Hi'.
    pose proof (omap_fresh (fun r' => objs !! r') held i Hi) as Hi''.
    destruct (decide (x = r)) as [-> | Hne].
    + rewrite (omap_insert_Some _ _ _ _ (mark_completed task))
        by (by rewrite lookup_alter_eq, Hr).
      rewrite (omap_insert_Some _ _ _ _ task) by done.
      rewrite !map_size_insert_None by done.
      split; [by rewrite IH1 | ].
      rewrite (map_filter_insert_True (fun kv : string * Task => completed (snd kv) = true)
                 _ i (mark_completed task)) by done.
      rewrite map_size_insert_None by (apply map_lookup_filter_None; by left).
      destruct (completed task) eqn:Hc.
      * rewrite (map_filter_insert_True _ _ i task) by done.
        rewrite map_size_insert_None by (apply map_lookup_filter_None; by left).
        rewrite IH2. lia.
      * rewrite (map_filter_insert_not' _ _ i task);
          [ | simpl; congruence | intros y Hy; congruence].
        rewrite (map_filter_insert_True (fun kv : string * positive => snd kv = r)) by done.
        rewrite (map_size_insert_None i r) by (apply map_lookup_filter_None; by left).
        rewrite IH2. lia.
    + assert (Hsame : alter mark_completed r objs !! x = objs !! x)
        by (by apply lookup_alter_ne).
      rewrite (map_filter_insert_not' (fun kv : string * positive => snd kv = r));
        [ | simpl; congruence | intros y Hy; congruence].
      rewrite !omap_insert, Hsame. destruct (objs !! x) as [y|].
      * rewrite !map_size_insert_None by done. split; [by rewrite IH1 | ].
        destruct (completed y) eqn:Hy.
        -- rewrite !map_filter_insert_True by done.
           rewrite !map_size_insert_None by (apply map_lookup_filter_None; by left).
           rewrite IH2. lia.
        -- rewrite !map_filter_insert_not';
             [ | simpl; congruence | intros z Hz; congruence
               | simpl; congruence | intros z Hz; congruence].
           exact IH2.
      * rewrite !delete_id by done. by split.
Qed.

(** X20.  Completing a stored task that was pending moves it from
    pending to completed in [get_stats] once for every id that holds the
    object (once when the object is stored under one id) and leaves the
    total; completing a task that already was completed changes no
    number. *)
Theorem stats_after_completion (s : store) (task_id : string) (r : positive)
    (task : Task) :
  stored s !! task_id = Some r ->
  objects s !! r = Some task ->
  get_stats (manager (fst (mark_task_completed task_id s))) !! "total"
  = get_stats (manager s) !! "total"
  /\ get_stats (manager (fst (mark_task_completed task_id s))) !! "completed"
     = (fun n => if completed task then n
                 else n + Z.of_nat (size (holders r (stored s))))
         <$> get_stats (manager s) !! "completed"
  /\ get_stats (manager (fst (mark_task_completed task_id s))) !! "pending"
     = (fun n => if completed task then n
                 else n - Z.of_nat (size (holders r (stored s))))
         <$> get_stats (manager s) !! "pending".
Proof.
  intros Hid Hr.
  destruct (completed_after_alter (objects s) r task (stored s) Hr) as [Hsize Hdone].
  unfold mark_task_completed. rewrite Hid. unfold manager, get_stats. simpl.
  rewrite !completed_count, Hsize, Hdone.
  repeat split; simplify_map_eq; try done;
    destruct (completed task); simpl; f_equal; lia.
Qed.

(** One task stored under two ids. *)
Definition aliased : store :=
  {| objects := {[ 1%positive := learn_python ]};
     stored := {[ "1" := 1%positive; "2" := 1%positive ]} |}.

Lemma stats_after_completion_witness :
  get_stats (manager (fst (mark_task_completed "1" aliased))) !! "completed" = Some 2.
Proof.
  destruct (stats_after_completion aliased "1" 1%positive learn_python eq_refl eq_refl)
    as (_ & Hdone & _).
  rewrite Hdone. vm_compute. reflexivity.
Defined.

(** *** Listings *)

(** The instant of a [datetime], and whether it carries a time zone. *)
Definition stamp (d : datetime) : Z := match d with Naive t | Aware t => t end.

Definition aware (d : datetime) : bool :=
  match d with Aware _ => true | Naive _ => false end.

Definition not_younger (a b : Task) : Prop :=
  stamp (created_at a) <= stamp (created_at b).

(** The tasks were all created with a time zone, or all without. *)
Definition one_kind (l : list Task) : bool :=
  forallb (fun task => aware (created_at task)) l
  || forallb (fun task => negb (aware (created_at task))) l.

Definition same_time (a b : datetime) : bool :=
  Bool.eqb (aware a) (aware b) && (stamp a =? stamp b).

(** The tasks [list_tasks] keeps before it sorts them. *)
Definition selected (values : list Task) (wanted : option bool) : list Task :=
  match wanted with
  | Some c => List.filter (fun task => Bool.eqb (completed task) c) values
  | None => values
  end.

(** The tasks of a list that were created at [d], in their order. *)
Definition created_on (d : datetime) (l : list Task) : list Task :=
  List.filter (fun task => same_time (created_at task) d) l.

Lemma earlier_Val a b c :
  earlier a b = Py.Val c -> aware a = aware b /\ c = (stamp a <? stamp b).
Proof. destruct a, b; simpl; intros [= <-]; by split. Qed.

Lemma earlier_same_kind a b :
  aware a = aware b -> earlier a b = Py.Val (stamp a <? stamp b).
Proof. by destruct a, b. Qed.

Lemma earlier_mixed a b : aware a <> aware b -> earlier a b = Py.Exc Py.TypeError.
Proof. by destruct a, b. Qed.

Lemma one_kind_spec l :
  one_kind l = true <-> exists k, Forall (fun task => aware (created_at task) = k) l.
Proof.
  unfold one_kind. rewrite Bool.orb_true_iff, !forallb_forall, <- !List.Forall_forall.
  split.
  - intros [H | H].
    + by exists true.
    + exists false. eapply List.Forall_impl; [ | exact H].
      intros task. simpl. by destruct (aware (created_at task)).
  - intros [[|] H]; [by left | right].
    eapply List.Forall_impl; [ | exact H]. intros task. simpl. by intros ->.
Qed.

Lemma insert_by_created_at_perm t l r :
  insert_by_created_at t l = Py.Val r -> r ≡ₚ t :: l.
Proof.
  revert r. induction l as [|x l IH]; intros r; simpl.
  - by intros [= <-].
  - destruct (earlier (created_at x) (created_at t)) as [[|]|e]; simpl; [ | | done].
    + destruct (insert_by_created_at t l) as [r'|e]; simpl; [ | done].
      intros [= <-]. rewrite (IH r' eq_refl). apply Permutation_swap.
    + by intros [= <-].
Qed.

Lemma sorted_by_created_at_perm l r : sorted_by_created_at l = Py.Val r -> r ≡ₚ l.
Proof.
  revert r. induction l as [|t l IH]; intros r; simpl.
  - by intros [= <-].
  - destruct (sorted_by_created_at l) as [r'|e]; simpl; [ | done].
    intros H. rewrite (insert_by_created_at_perm _ _ _ H). by rewrite (IH r' eq_refl).
Qed.

Lemma insert_by_created_at_returns t l :
  Forall (fun x => aware (created_at x) = aware (created_at t)) l ->
  exists r, insert_by_created_at t l = Py.Val r.
Proof.
  induction 1 as [|x l Hx Hl [r IH]]; simpl; [by eexists | ].
  rewrite (earlier_same_kind _ _ Hx). simpl.
  destruct (stamp (created_at x) <? stamp (created_at t)); [ | by eexists].
  rewrite IH. simpl. by eexists.
Qed.

Lemma sorted_by_created_at_returns k l :
  Forall (fun x => aware (created_at x) = k) l ->
  exists r, sorted_by_created_at l = Py.Val r.
Proof.
  induction 1 as [|t l Ht Hl [r IH]]; simpl; [by eexists | ].
  rewrite IH. simpl. apply insert_by_created_at_returns.
  rewrite (sorted_by_created_at_perm _ _ IH).
  eapply List.Forall_impl; [ | exact Hl]. intros x. simpl. congruence.
Qed.

Lemma sorted_by_created_at_mixed l :
  one_kind l = false -> sorted_by_created_at l = Py.Exc Py.TypeError.
Proof.
  induction l as [|t l IH]; [done | ]. intros Hmixed. simpl.
  destruct (one_kind l) eqn:Hl; [ | by rewrite IH].
  apply one_kind_spec in Hl as [k Hk].
  destruct (sorted_by_created_at_returns k l Hk) as [r Hr]. rewrite Hr. simpl.
  pose proof (sorted_by_created_at_perm _ _ Hr) as Hperm.
  destruct r as [|x r].
  - apply Permutation_nil_l in Hperm as <-.
    unfold one_kind in Hmixed. simpl in Hmixed.
    by destruct (aware (created_at t)).
  - assert (Hx : aware (created_at x) = k).
    { rewrite <- Hperm in Hk. by inversion Hk. }
    simpl. rewrite earlier_mixed; [done | ].
    intros Hsame. rewrite Hx in Hsame.
    assert (Hone : one_kind (t :: l) = true); [ | congruence].
    apply one_kind_spec. exists k. by constructor.
Qed.

Lemma insert_by_created_at_sorted t l r :
  StronglySorted not_younger l ->
  insert_by_created_at t l = Py.Val r ->
  StronglySorted not_younger r.
Proof.
  intros Hl. revert r. induction Hl as [|x l Hl IH Hx]; intros r; simpl.
  - intros [= <-]. by repeat constructor.
  - destruct (earlier (created_at x) (created_at t)) as [older|e] eqn:E; simpl; [ | done].
    apply earlier_Val in E as [_ ->].
    destruct (stamp (created_at x) <? stamp (created_at t)) eqn:E.
    + apply Z.ltb_lt in E.
      destruct (insert_by_created_at t l) as [r'|e] eqn:Hr'; simpl; [ | done].
      intros [= <-]. constructor; [by apply IH | ].
      rewrite (insert_by_created_at_perm _ _ _ Hr'). constructor; [ | exact Hx].
      unfold not_younger. lia.
    + apply Z.ltb_ge in E. intros [= <-].
      constructor; [by constructor | ]. constructor; [exact E | ].
      eapply List.Forall_impl; [ | exact Hx]. intros y Hy. unfold not_younger in *. lia.
Qed.

Lemma sorted_by_created_at_sorted l r :
  sorted_by_created_at l = Py.Val r -> StronglySorted not_younger r.
Proof.
  revert r. induction l as [|t l IH]; intros r; simpl.
  - intros [= <-]. constructor.
  - destruct (sorted_by_created_at l) as [r'|e]; simpl; [ | done].
    apply insert_by_created_at_sorted. by apply IH.
Qed.

Lemma insert_by_created_at_stable d t l r :
  insert_by_created_at t l = Py.Val r ->
  created_on d r = created_on d (t :: l).
Proof.
  unfold created_on. revert r. induction l as [|x l IH]; intros r; simpl.
  - by intros [= <-].
  - destruct (earlier (created_at x) (created_at t)) as [older|e] eqn:E; simpl; [ | done].
    apply earlier_Val in E as [Hkind ->].
    destruct (stamp (created_at x) <? stamp (created_at t)) eqn:E.
    + apply Z.ltb_lt in E.
      destruct (insert_by_created_at t l) as [r'|e]; simpl; [ | done].
      intros [= <-]. simpl. rewrite (IH r' eq_refl). simpl.
      destruct (same_time (created_at t) d) eqn:Et; [ | done].
      destruct (same_time (created_at x) d) eqn:Ex; [ | done].
      unfold same_time in Et, Ex.
      apply andb_prop in Et as [_ Et]. apply andb_prop in Ex as [_ Ex].
      apply Z.eqb_eq in Et, Ex. lia.
    + by intros [= <-].
Qed.

Lemma sorted_by_created_at_stable d l r :
  sorted_by_created_at l = Py.Val r -> created_on d r = created_on d l.
Proof.
  revert r. induction l as [|t l IH]; intros r; simpl.
  - by intros [= <-].
  - destruct (sorted_by_created_at l) as [r'|e]; simpl; [ | done].
    intros H. rewrite (insert_by_created_at_stable _ _ _ _ H).
    unfold created_on in *. simpl. by rewrite (IH r' eq_refl).
Qed.


Lemma filter_length_Permutation {A : Type} (f : A -> bool) (l l' : list A) :
  l ≡ₚ l' -> List.length (List.filter f l) = List.length (List.filter f l').
Proof.
  induction 1 as [ | x l l' Hl IH | x y l | l l' l'' H1 IH1 H2 IH2]; simpl.
  - done.
  - destruct (f x); simpl; by rewrite IH.
  - by destruct (f x), (f y).
  - by rewrite IH1.
Qed.

Lemma stored_with_status (stored : gmap string Task) (c : bool) :
  size (filter (fun kv : string * Task => completed (snd kv) = c) stored)
  = List.length (List.filter (fun task => Bool.eqb (completed task) c)
                   (map snd (map_to_list stored))).
Proof.
  induction stored as [|k task stored Hk IH] using map_ind.
  - by rewrite map_filter_empty, map_to_list_empty.
  - rewrite (filter_length_Permutation _ _ (task :: map snd (map_to_list stored)))
      by (by rewrite map_to_list_insert).
    simpl. destruct (Bool.eqb (completed task) c) eqn:E.
    + apply Bool.eqb_prop in E. rewrite map_filter_insert_True by done.
      rewrite map_size_insert_None; [simpl; by rewrite IH | ].
      apply map_lookup_filter_None. by left.
    + apply Bool.eqb_false_iff in E.
      rewrite map_filter_insert_not'; [done | done | ]. intros y Hy. congruence.
Qed.

Lemma one_kind_filter (f : Task -> bool) (l : list Task) :
  one_kind l = true -> one_kind (List.filter f l) = true.
Proof.
  rewrite !one_kind_spec. intros [k Hk]. exists k.
  apply List.Forall_forall. intros task Hin. apply List.filter_In in Hin as [Hin _].
  revert task Hin. by apply List.Forall_forall.
Qed.

(** X22.  The listings and the statistics agree: for the stored tasks
    in any order of insertion, all created with a time zone or all
    without, the three listings are returned, and [list_tasks()] has as
    many tasks as [get_stats] counts in total, [list_tasks(True)] as
    many as it counts completed and [list_tasks(False)] as many as it
    counts pending. *)
Theorem listings_match_stats (m : TaskManager) (values : list Task) :
  values ≡ₚ map snd (map_to_list (tasks m)) ->
  one_kind values = true ->
  exists every done pending,
    list_tasks values None = Py.Val every
    /\ list_tasks values (Some true) = Py.Val done
    /\ list_tasks values (Some false) = Py.Val pending
    /\ get_stats m !! "total" = Some (Z.of_nat (List.length every))
    /\ get_stats m !! "completed" = Some (Z.of_nat (List.length done))
    /\ get_stats m !! "pending" = Some (Z.of_nat (List.length pending)).
Proof.
  intros Hvalues Hkind.
  assert (Hlist : forall wanted,
            exists l, list_tasks values wanted = Py.Val l
                      /\ List.length l
                         = List.length (selected (map snd (map_to_list (tasks m))) wanted)).
  { intros wanted.
    assert (Hsel : one_kind (selected values wanted) = true).
    { destruct wanted as [c|]; [by apply one_kind_filter | done]. }
    unfold list_tasks. fold (selected values wanted).
    apply one_kind_spec in Hsel as [k Hk].
    destruct (sorted_by_created_at_returns k _ Hk) as [l Hl].
    exists l. split; [exact Hl | ].
    rewrite (sorted_by_created_at_perm _ _ Hl). destruct wanted as [c|]; simpl.
    - by apply filter_length_Permutation.
    - by rewrite Hvalues. }
  destruct (Hlist None) as (every & Hevery & Levery).
  destruct (Hlist (Some true)) as (done & Hdone & Ldone).
  destruct (Hlist (Some false)) as (pending & Hpending & Lpending).
  exists every, done, pending.
  split; [exact Hevery | ]. split; [exact Hdone | ]. split; [exact Hpending | ].
  rewrite Levery, Ldone, Lpending. simpl. rewrite <- !stored_with_status.
  rewrite length_map, length_map_to_list.
  unfold get_stats. rewrite completed_count.
  pose proof (completed_pending_size (tasks m)) as Hsplit.
  repeat split; simplify_map_eq; try done. f_equal. lia.
Qed.

Definition write_tests : Task :=
  {| id := "2"; title := "Write tests"; completed := true; created_at := Naive 0;
     tags := ["programming"; "testing"]; metadata := ∅ |}.

Lemma listings_match_stats_witness :
  exists every done pending,
    list_tasks [learn_python; write_tests] None = Py.Val every
    /\ list_tasks [learn_python; write_tests] (Some true) = Py.Val done
    /\ list_tasks [learn_python; write_tests] (Some false) = Py.Val pending
    /\ get_stats (add_task write_tests (add_task learn_python init)) !! "total"
       = Some (Z.of_nat (List.length every))
    /\ get_stats (add_task write_tests (add_task learn_python init)) !! "completed"
       = Some (Z.of_nat (List.length done))
    /\ get_stats (add_task write_tests (add_task learn_python init)) !! "pending"
       = Some (Z.of_nat (List.length pending)).
Proof.
  apply (listings_match_stats (add_task write_tests (add_task learn_python init))
           [learn_python; write_tests]).
  - vm_compute. first [reflexivity | apply perm_swap].
  - reflexivity.
Defined.

End SampleExtra.
